(** * Worker-pool expansion of the vSphere provider extension

    A shallow embedding of [pkg/controller/worker/machines.go]: the worker
    delegate turns every worker pool into one machine deployment and one
    machine class per zone.  Go errors become the [result] type, the
    delegate's cached fields are threaded as explicit state, Go maps are
    [gmap]s and fixed-width integers are [Z] with their wrap-around spelled
    out. *)

From Stdlib Require Import ZArith Lia Ascii.
From stdpp Require Import gmap strings list fin_maps pretty.

Set Warnings "-register-all".
#[local] Open Scope Z_scope.

(** ** Go primitives *)

(** [int32(x)]: conversion of an integer to 32 bits, two's complement. *)
Definition int32 (z : Z) : Z := (z + 2 ^ 31) `mod` 2 ^ 32 - 2 ^ 31.

(** [[]byte] values and the conversions [string(b)] and [[]byte(s)]. *)
Definition bytes : Type := list Byte.byte.
Definition go_string (b : bytes) : string := String.string_of_list_byte b.
Definition go_bytes (s : string) : bytes := String.list_byte_of_string s.

(** The characters of a string. *)
Abbreviation chars := String.list_ascii_of_string.

(** [strconv.FormatBool]. *)
Definition FormatBool (b : bool) : string := if b then "true" else "false".

(** A Go slice whose nil-ness is observed: [None] is the nil slice. *)
Definition slice (A : Type) : Type := option (list A).
Definition slice_list {A} (s : slice A) : list A := default [] s.
Definition slice_append {A} (s : slice A) (x : A) : slice A :=
  Some (slice_list s ++ [x]).

(** Several appends in a row: a nil slice stays nil when nothing is added. *)
Definition slice_extend {A} (s : slice A) (l : list A) : slice A :=
  match l with
  | [] => s
  | _ => Some (slice_list s ++ l)
  end.

(** The verb [%d] of [fmt.Sprintf]. *)
Definition fmt_d (n : Z) : string := pretty n.

(** ** Resource quantities

    The catalogue stores [resource.Quantity] values of the Kubernetes API
    machinery, read from the cloud profile by the library's parser.  The
    model keeps what was written: an integer mantissa and a binary suffix.

    The parser holds a quantity as a scaled 64-bit integer only when the
    mantissa has few digits: at most 18 without suffix, and with a binary
    suffix of exponent [e] at most [15 - 1 - 3e/10], that is 11, 8, 5 and 2
    for Ki, Mi, Gi and Ti; and only when the product does not overflow.
    Every other quantity is held as a decimal, and [AsInt64] answers false
    for a decimal whatever its value. *)
Inductive QuantitySuffix := NoSuffix | Ki | Mi | Gi | Ti.

Record Quantity := { q_mantissa : Z; q_suffix : QuantitySuffix }.

Definition suffix_factor (s : QuantitySuffix) : Z :=
  match s with
  | NoSuffix => 1
  | Ki => 2 ^ 10
  | Mi => 2 ^ 20
  | Gi => 2 ^ 30
  | Ti => 2 ^ 40
  end.

(** The number of mantissa digits up to which the parser keeps an integer. *)
Definition suffix_digits (s : QuantitySuffix) : Z :=
  match s with
  | NoSuffix => 18
  | Ki => 11
  | Mi => 8
  | Gi => 5
  | Ti => 2
  end.

(** The quantity is held as a scaled 64-bit integer. *)
Definition heldAsInt64 (q : Quantity) : bool :=
  bool_decide (Z.abs (q_mantissa q) < 10 ^ suffix_digits (q_suffix q))
  && bool_decide (- 2 ^ 63 <= q_mantissa q * suffix_factor (q_suffix q) < 2 ^ 63).

Definition AsInt64 (q : Quantity) : option Z :=
  if heldAsInt64 q then Some (q_mantissa q * suffix_factor (q_suffix q)) else None.

(** ** Errors *)

(** The five error kinds of the design's error handling section. *)
Inductive ErrorKind :=
| NotFound | InvalidValue | MissingConfiguration | UpstreamFailure | Cancelled.

(** One constructor per [fmt.Errorf] of the file, one for errors handed back
    by a collaborator, [errors.Wrap], and the run-time panic of a failed type
    assertion. *)
Inductive error :=
| ErrCollaborator (kind : ErrorKind) (msg : string)
| ErrRegionNotFound (region : string)
| ErrSegmentNameNotSet
| ErrMissingSSHPublicKey
| ErrZoneConfigNotFound (zone : string)
| ErrMachineTypeNotFound (name : string)
| ErrInvalidCPU (name : string) (cpu : Quantity)
| ErrInvalidMemory (name : string) (cpu : Quantity)
| ErrInvalidStorageSize (name : string) (size : Quantity)
| ErrInvalidStorageSizeGB (name : string) (gb : Z)
| ErrWrap (e : error) (msg : string)
| ErrPanic (msg : string).

(** Modelled from the spec: the classification of errors into the kinds of
    the error handling section ([NotFound] for an absent machine type, image or
    zone-config entry, [InvalidValue] for a malformed or non-positive quantity,
    [MissingConfiguration] for the network segment and the SSH key).  The
    enumeration has no kind for an unknown region. *)
Fixpoint error_kind (e : error) : option ErrorKind :=
  match e with
  | ErrCollaborator k _ => Some k
  | ErrRegionNotFound _ => None
  | ErrSegmentNameNotSet => Some MissingConfiguration
  | ErrMissingSSHPublicKey => Some MissingConfiguration
  | ErrZoneConfigNotFound _ => Some NotFound
  | ErrMachineTypeNotFound _ => Some NotFound
  | ErrInvalidCPU _ _ => Some InvalidValue
  | ErrInvalidMemory _ _ => Some InvalidValue
  | ErrInvalidStorageSize _ _ => Some InvalidValue
  | ErrInvalidStorageSizeGB _ _ => Some InvalidValue
  | ErrWrap e _ => error_kind e
  | ErrPanic _ => None
  end.

Inductive result (A : Type) :=
| Ok (a : A)
| Err (e : error).
Arguments Ok {A} a.
Arguments Err {A} e.

Definition bind {A B} (m : result A) (k : A → result B) : result B :=
  match m with
  | Ok a => k a
  | Err e => Err e
  end.

Notation "'do' x <- m ; k" := (bind m (λ x, k))
  (at level 10, x pattern, m at level 100, k at level 200).

(** [errors.Wrap(err, msg)] applied to the error of a failed call. *)
Definition wrap_err {A} (m : result A) (msg : string) : result A :=
  match m with
  | Ok a => Ok a
  | Err e => Err (ErrWrap e msg)
  end.

(** ** Data model *)

Record MachineTypeStorage := { StorageSize : Quantity }.

Record MachineType := {
  mt_Name : string;
  mt_CPU : Quantity;
  mt_Memory : Quantity;
  mt_Storage : option MachineTypeStorage;
}.

(** Modelled from the spec: a rolling-update bound is an absolute integer or
    a percentage ([intstr.IntOrString] of the API machinery). *)
Inductive IntOrPercent :=
| FromInt (n : Z)
| FromPercent (p : Z).

Record Taint := { taint_Key : string; taint_Value : string; taint_Effect : string }.

Record ShootMachineImage := { image_Name : string; image_Version : string }.

Record WorkerPool := {
  pool_Name : string;
  pool_MachineType : string;
  pool_MachineImage : ShootMachineImage;
  pool_Zones : list string;
  pool_Minimum : Z;
  pool_Maximum : Z;
  pool_MaxSurge : IntOrPercent;
  pool_MaxUnavailable : IntOrPercent;
  pool_Labels : gmap string string;
  pool_Annotations : gmap string string;
  pool_Taints : list Taint;
  pool_UserData : bytes;
}.

Record SecretReference := { secret_Name : string; secret_Namespace : string }.

Record Worker := {
  Namespace : string;
  SecretRef : SecretReference;
  InfrastructureProviderStatus : option bytes;
  SSHPublicKey : bytes;
  Pools : list WorkerPool;
}.

Record Cluster := {
  Shoot_Spec_Region : string;
  CloudProfile_Spec_MachineTypes : list MachineType;
}.

Record RegionSpec := {
  region_Name : string;
  VsphereHost : string;
  VsphereInsecureSSL : bool;
}.

Record CloudProfileConfig := { Regions : list RegionSpec }.

Record ZoneConfig := {
  Datacenter : string;
  HostSystem : string;
  ResourcePool : string;
  ComputeCluster : string;
  Datastore : string;
  DatastoreCluster : string;
  SwitchUUID : string;
}.

Record VsphereConfig := {
  Folder : string;
  Region : string;
  ZoneConfigs : gmap string ZoneConfig;
}.

Record NSXTInfraState := { SegmentName : option string }.

Record InfrastructureStatus := {
  infra_VsphereConfig : VsphereConfig;
  infra_NSXTInfraState : option NSXTInfraState;
}.

Record UserPass := { Username : string; Password : string }.
Record Credentials := { VsphereMCM : UserPass }.

Record MachineImage := {
  mi_Name : string;
  mi_Version : string;
  mi_Path : string;
  mi_GuestID : string;
}.

Record MachineDeployment := {
  md_Name : string;
  md_ClassName : string;
  md_SecretName : string;
  md_Minimum : Z;
  md_Maximum : Z;
  md_MaxSurge : IntOrPercent;
  md_MaxUnavailable : IntOrPercent;
  md_Labels : gmap string string;
  md_Annotations : gmap string string;
  md_Taints : list Taint;
}.

(** [map[string]interface{}] with the dynamic types the file stores in it. *)
Inductive value :=
| VString (s : string)
| VInt (n : Z)
| VStrings (l : list string)
| VStringMap (m : gmap string string)
| VMap (m : gmap string value).

Abbreviation MachineClass := (gmap string value).

Record workerDelegate := {
  worker : Worker;
  cluster : Cluster;
  cloudProfileConfig : CloudProfileConfig;
  machineImages : list MachineImage;
  machineDeployments : slice MachineDeployment;
  machineClasses : slice MachineClass;
}.

(** The seed cluster behind [w.Client()] and [w.seedChartApplier]: what a
    secret look-up answers and what applying the machine class chart
    answers.  It may change between two calls on one delegate. *)
Record Seed := {
  GetSecretByReference : SecretReference → result (gmap string bytes);
  Apply : string → string → string → slice MachineClass → option error;
}.

(** ** Collaborators

    Constants and functions the file imports from other packages
    ([pkg/vsphere], [pkg/apis/vsphere/helper], the extension library) and the
    delegate's own [findMachineImage], which lives in another file. *)
Class Collaborators := {
  (** Modelled from the spec: the keys of the four credential fields (host,
      user name, password, insecure-SSL flag), the constants [vsphere.Host],
      [vsphere.Username], [vsphere.Password] and [vsphere.InsecureSSL]. *)
  vsphere_Host : string;
  vsphere_Username : string;
  vsphere_Password : string;
  vsphere_InsecureSSL : string;
  (** [filepath.Join(vsphere.InternalChartsPath, "machineclass")] *)
  machineclassChartPath : string;
  ExtractCredentials : gmap string bytes → result Credentials;
  FindRegion : string → CloudProfileConfig → option RegionSpec;
  GetInfrastructureStatus : string → option bytes → result InfrastructureStatus;
  WorkerPoolHash : WorkerPool → Cluster → result string;
  findMachineImage : workerDelegate → string → string → result (string * string);
}.

(** ** Zone distribution *)

(** Upward-rounded quotient for a positive divisor. *)
Definition ceil_div (a b : Z) : Z := - ((- a) `div` b).

(** Modelled from the spec: [worker.DistributeOverZones] of the extension
    library.  The first [size mod zoneSize] zones receive the ceiling of
    [size / zoneSize], the others the floor. *)
Definition DistributeOverZones (zoneIndex size zoneSize : Z) : Z :=
  if bool_decide (zoneIndex < size `mod` zoneSize)
  then ceil_div size zoneSize
  else size `div` zoneSize.

(** Modelled from the spec: [worker.DistributePositiveIntOrPercent] of the
    extension library.  An absolute value is distributed as it is; a
    percentage is first resolved against [total], rounding up, and the
    resolved integer is distributed. *)
Definition DistributePositiveIntOrPercent
    (zoneIndex : Z) (intOrPercent : IntOrPercent) (zoneSize total : Z) : IntOrPercent :=
  match intOrPercent with
  | FromInt n => FromInt (DistributeOverZones zoneIndex n zoneSize)
  | FromPercent p =>
      FromInt (DistributeOverZones zoneIndex (ceil_div (p * total) 100) zoneSize)
  end.

(** Modelled from the spec: [appendMachineImage] of the delegate's image
    file.  An image whose (name, version) is already recorded is not appended
    again; the first record seen is kept. *)
Definition appendMachineImage
    (machineImages : list MachineImage) (machineImage : MachineImage) : list MachineImage :=
  if existsb (λ i, bool_decide (mi_Name i = mi_Name machineImage
                                ∧ mi_Version i = mi_Version machineImage)) machineImages
  then machineImages
  else machineImages ++ [machineImage].

(** ** The delegate *)

Section delegate.
Context `{Collaborators}.

(** [generateMachineClassSecretData]: the credential fields every machine
    class secret receives. *)
Definition generateMachineClassSecretData
    (seed : Seed) (w : workerDelegate) : result (gmap string bytes) :=
  do secret <- GetSecretByReference seed (SecretRef (worker w));
  do credentials <- ExtractCredentials secret;
  match FindRegion (Shoot_Spec_Region (cluster w)) (cloudProfileConfig w) with
  | None => Err (ErrRegionNotFound (Shoot_Spec_Region (cluster w)))
  | Some region =>
      Ok (<[vsphere_InsecureSSL := go_bytes (FormatBool (VsphereInsecureSSL region))]>
          (<[vsphere_Password := go_bytes (Password (VsphereMCM credentials))]>
          (<[vsphere_Username := go_bytes (Username (VsphereMCM credentials))]>
          (<[vsphere_Host := go_bytes (VsphereHost region)]> ∅))))
  end.

(** [extractMachineValues]: CPU count, memory in MB and system disk size in
    GB of the first catalogue entry with the given name.  [int] is 64 bits
    wide, so [int(n)] keeps the value; [/] truncates towards zero. *)
Definition extractMachineValues
    (w : workerDelegate) (machineTypeName : string) : result (Z * Z * Z) :=
  match List.find (λ mt, bool_decide (mt_Name mt = machineTypeName))
                  (CloudProfile_Spec_MachineTypes (cluster w)) with
  | None => Err (ErrMachineTypeNotFound machineTypeName)
  | Some machineType =>
      let numCpus :=
        match AsInt64 (mt_CPU machineType) with Some n => n | None => 0 end in
      if bool_decide (numCpus <= 0)
      then Err (ErrInvalidCPU machineTypeName (mt_CPU machineType))
      else
        let memoryInMB :=
          match AsInt64 (mt_Memory machineType) with
          | Some n => Z.quot n (1024 * 1024)
          | None => 0
          end in
        if bool_decide (memoryInMB <= 0)
        then Err (ErrInvalidMemory machineTypeName (mt_CPU machineType))
        else
          match mt_Storage machineType with
          | None => Ok (numCpus, memoryInMB, 20)
          | Some storage =>
              match AsInt64 (StorageSize storage) with
              | None => Err (ErrInvalidStorageSize machineTypeName (StorageSize storage))
              | Some n =>
                  let systemDiskSizeInGB := Z.quot n (1024 * 1024 * 1024) in
                  if bool_decide (systemDiskSizeInGB < 10)
                  then Err (ErrInvalidStorageSizeGB machineTypeName systemDiskSizeInGB)
                  else Ok (numCpus, memoryInMB, systemDiskSizeInGB)
              end
          end
  end.

(** The closure [addOptional] of the zone loop. *)
Definition addOptional (key val : string) (machineClassSpec : MachineClass) : MachineClass :=
  if decide (val = EmptyString) then machineClassSpec
  else <[key := VString val]> machineClassSpec.

(** [for k, v := range machineClassSecretData { secretMap[k] = string(v) }] *)
Definition mergeSecretData
    (machineClassSecretData : gmap string bytes) (secretMap : gmap string value)
    : gmap string value :=
  map_fold (λ k v m, <[k := VString (go_string v)]> m) secretMap machineClassSecretData.

(** What the zone loop reads and does not change. *)
Record poolEnv := {
  env_infra : InfrastructureStatus;
  env_segment : string;
  env_secretData : gmap string bytes;
  env_pool : WorkerPool;
  env_zoneLen : Z;
  env_workerPoolHash : string;
  env_machineImagePath : string;
  env_machineImageGuestID : string;
  env_numCpus : Z;
  env_memoryInMB : Z;
  env_systenDiskSizeInGB : Z;
}.

Definition deploymentName (w : workerDelegate) (pool : WorkerPool) (zoneIndex : nat) : string :=
  Namespace (worker w) +:+ "-" +:+ pool_Name pool +:+ "-z" +:+ fmt_d (Z.of_nat zoneIndex + 1).

Definition className (w : workerDelegate) (pool : WorkerPool) (workerPoolHash : string)
    (zoneIndex : nat) : string :=
  deploymentName w pool zoneIndex +:+ "-" +:+ workerPoolHash.

(** The map literal that starts a machine class. *)
Definition machineClassLiteral (w : workerDelegate) (e : poolEnv) (zoneConfig : ZoneConfig)
    : MachineClass :=
  <["secret" := VMap {[ "cloudConfig" := VString (go_string (pool_UserData (env_pool e))) ]}]>
  (<["tags" := VStringMap (<["mcm.gardener.cloud/role" := "node"]>
                           {[ "mcm.gardener.cloud/cluster" := Namespace (worker w) ]})]>
  (<["systemDisk" := VMap {[ "size" := VInt (env_systenDiskSizeInGB e) ]}]>
  (<["memory" := VInt (env_memoryInMB e)]>
  (<["numCpus" := VInt (env_numCpus e)]>
  (<["templateVM" := VString (env_machineImagePath e)]>
  (<["network" := VString (env_segment e)]>
  (<["datacenter" := VString (Datacenter zoneConfig)]>
  (<["sshKeys" := VStrings [go_string (SSHPublicKey (worker w))]]>
  (<["region" := VString (Region (infra_VsphereConfig (env_infra e)))]> ∅))))))))).

(** The eight [addOptional] calls, in source order. *)
Definition addOptionals (e : poolEnv) (zoneConfig : ZoneConfig) (m : MachineClass)
    : MachineClass :=
  addOptional "switchUuid" (SwitchUUID zoneConfig)
  (addOptional "datastoreCluster" (DatastoreCluster zoneConfig)
  (addOptional "datastore" (Datastore zoneConfig)
  (addOptional "computeCluster" (ComputeCluster zoneConfig)
  (addOptional "resourcePool" (ResourcePool zoneConfig)
  (addOptional "hostSystem" (HostSystem zoneConfig)
  (addOptional "guestId" (env_machineImageGuestID e)
  (addOptional "folder" (Folder (infra_VsphereConfig (env_infra e))) m))))))).

(** The [worker.MachineDeployment] literal appended for a zone. *)
Definition zoneDeployment (w : workerDelegate) (e : poolEnv) (zoneIndex : nat)
    : MachineDeployment :=
  let zoneIdx := int32 (Z.of_nat zoneIndex) in
  let pool := env_pool e in
  {| md_Name := deploymentName w pool zoneIndex;
     md_ClassName := className w pool (env_workerPoolHash e) zoneIndex;
     md_SecretName := className w pool (env_workerPoolHash e) zoneIndex;
     md_Minimum := DistributeOverZones zoneIdx (pool_Minimum pool) (env_zoneLen e);
     md_Maximum := DistributeOverZones zoneIdx (pool_Maximum pool) (env_zoneLen e);
     md_MaxSurge :=
       DistributePositiveIntOrPercent zoneIdx (pool_MaxSurge pool) (env_zoneLen e)
                                      (pool_Maximum pool);
     md_MaxUnavailable :=
       DistributePositiveIntOrPercent zoneIdx (pool_MaxUnavailable pool) (env_zoneLen e)
                                      (pool_Minimum pool);
     md_Labels := pool_Labels pool;
     md_Annotations := pool_Annotations pool;
     md_Taints := pool_Taints pool |}.

(** One iteration of the zone loop: the deployment and the class appended
    for [zone], or the error that leaves the function.  The nested secret map
    is shared with the class record, so writing to it changes the record. *)
Definition zoneStep (w : workerDelegate) (e : poolEnv) (zoneIndex : nat) (zone : string)
    : result (MachineDeployment * MachineClass) :=
  match ZoneConfigs (infra_VsphereConfig (env_infra e)) !! zone with
  | None => Err (ErrZoneConfigNotFound zone)
  | Some zoneConfig =>
      let machineClassSpec := addOptionals e zoneConfig (machineClassLiteral w e zoneConfig) in
      let deployment := zoneDeployment w e zoneIndex in
      let machineClassSpec :=
        <["name" := VString (className w (env_pool e) (env_workerPoolHash e) zoneIndex)]>
          machineClassSpec in
      match machineClassSpec !! "secret" with
      | Some (VMap secretMap) =>
          Ok (deployment,
              <["secret" := VMap (mergeSecretData (env_secretData e) secretMap)]>
                machineClassSpec)
      | _ => Err (ErrPanic "interface conversion")
      end
  end.

(** [for zoneIndex, zone := range pool.Zones], with the two accumulators. *)
Fixpoint zonesLoop (w : workerDelegate) (e : poolEnv) (zones : list string) (zoneIndex : nat)
    (mds : slice MachineDeployment) (mcs : slice MachineClass)
    : result (slice MachineDeployment * slice MachineClass) :=
  match zones with
  | [] => Ok (mds, mcs)
  | zone :: zones' =>
      do (deployment, machineClassSpec) <- zoneStep w e zoneIndex zone;
      zonesLoop w e zones' (S zoneIndex)
                (slice_append mds deployment) (slice_append mcs machineClassSpec)
  end.

(** [for _, pool := range w.worker.Spec.Pools], with the three accumulators. *)
Fixpoint poolsLoop (w : workerDelegate) (infra : InfrastructureStatus) (segment : string)
    (secretData : gmap string bytes) (pools : list WorkerPool)
    (mds : slice MachineDeployment) (mcs : slice MachineClass) (images : list MachineImage)
    : result (slice MachineDeployment * slice MachineClass * list MachineImage) :=
  match pools with
  | [] => Ok (mds, mcs, images)
  | pool :: pools' =>
      let zoneLen := int32 (Z.of_nat (length (pool_Zones pool))) in
      do workerPoolHash <- WorkerPoolHash pool (cluster w);
      do (machineImagePath, machineImageGuestID) <-
        findMachineImage w (image_Name (pool_MachineImage pool))
                           (image_Version (pool_MachineImage pool));
      let images :=
        appendMachineImage images
          {| mi_Name := image_Name (pool_MachineImage pool);
             mi_Version := image_Version (pool_MachineImage pool);
             mi_Path := machineImagePath;
             mi_GuestID := machineImageGuestID |} in
      do (numCpus, memoryInMB, systenDiskSizeInGB) <-
        wrap_err (extractMachineValues w (pool_MachineType pool))
                 "extracting machine values failed";
      let e := {| env_infra := infra; env_segment := segment;
                  env_secretData := secretData;
                  env_pool := pool; env_zoneLen := zoneLen;
                  env_workerPoolHash := workerPoolHash;
                  env_machineImagePath := machineImagePath;
                  env_machineImageGuestID := machineImageGuestID;
                  env_numCpus := numCpus; env_memoryInMB := memoryInMB;
                  env_systenDiskSizeInGB := systenDiskSizeInGB |} in
      do (mds, mcs) <- zonesLoop w e (pool_Zones pool) 0 mds mcs;
      poolsLoop w infra segment secretData pools' mds mcs images
  end.

(** The segment name of the network created by the infrastructure
    controller, when both pointers on the way to it are set. *)
Definition segmentName (infra : InfrastructureStatus) : option string :=
  match infra_NSXTInfraState infra with
  | None => None
  | Some state => SegmentName state
  end.

(** The body of [generateMachineConfig] up to the three assignments. *)
Definition generate (seed : Seed) (w : workerDelegate)
    : result (slice MachineDeployment * slice MachineClass * list MachineImage) :=
  do machineClassSecretData <- generateMachineClassSecretData seed w;
  do infrastructureStatus <-
    GetInfrastructureStatus (Namespace (worker w)) (InfrastructureProviderStatus (worker w));
  match segmentName infrastructureStatus with
  | None => Err ErrSegmentNameNotSet
  | Some segment =>
      if bool_decide (length (SSHPublicKey (worker w)) = 0%nat)
      then Err ErrMissingSSHPublicKey
      else poolsLoop w infrastructureStatus segment machineClassSecretData
                     (Pools (worker w)) (Some []) None []
  end.

(** [generateMachineConfig]: the delegate after the call and the error
    returned.  The cached fields are assigned on success only. *)
Definition generateMachineConfig (seed : Seed) (w : workerDelegate)
    : workerDelegate * option error :=
  match generate seed w with
  | Ok (mds, mcs, images) =>
      ({| worker := worker w; cluster := cluster w;
          cloudProfileConfig := cloudProfileConfig w;
          machineImages := images;
          machineDeployments := mds;
          machineClasses := mcs |}, None)
  | Err e => (w, Some e)
  end.

(** [GenerateMachineDeployments]: delegate, returned deployments, error. *)
Definition GenerateMachineDeployments (seed : Seed) (w : workerDelegate)
    : workerDelegate * (slice MachineDeployment * option error) :=
  match machineDeployments w with
  | None =>
      match generateMachineConfig seed w with
      | (w', Some e) => (w', (None, Some e))
      | (w', None) => (w', (machineDeployments w', None))
      end
  | Some _ => (w, (machineDeployments w, None))
  end.

(** [DeployMachineClasses]: delegate and returned error; the error of a
    successful generation is what applying the chart answers. *)
Definition DeployMachineClasses (seed : Seed) (w : workerDelegate)
    : workerDelegate * option error :=
  let applyChart (w : workerDelegate) :=
    Apply seed machineclassChartPath (Namespace (worker w)) "machineclass"
          (machineClasses w) in
  match machineClasses w with
  | None =>
      match generateMachineConfig seed w with
      | (w', Some e) => (w', Some e)
      | (w', None) => (w', applyChart w')
      end
  | Some _ => (w, applyChart w)
  end.

(** ** The loops without their accumulators *)

(** The look-ups the pool loop makes for one pool before it visits the zones,
    gathered: what they return is what the zone loop reads. *)
Definition poolLookups (w : workerDelegate) (infra : InfrastructureStatus) (segment : string)
    (secretData : gmap string bytes) (pool : WorkerPool) : result poolEnv :=
  let zoneLen := int32 (Z.of_nat (length (pool_Zones pool))) in
  do workerPoolHash <- WorkerPoolHash pool (cluster w);
  do (machineImagePath, machineImageGuestID) <-
    findMachineImage w (image_Name (pool_MachineImage pool))
                       (image_Version (pool_MachineImage pool));
  do (numCpus, memoryInMB, systenDiskSizeInGB) <-
    wrap_err (extractMachineValues w (pool_MachineType pool))
             "extracting machine values failed";
  Ok {| env_infra := infra; env_segment := segment; env_secretData := secretData;
        env_pool := pool; env_zoneLen := zoneLen;
        env_workerPoolHash := workerPoolHash;
        env_machineImagePath := machineImagePath;
        env_machineImageGuestID := machineImageGuestID;
        env_numCpus := numCpus; env_memoryInMB := memoryInMB;
        env_systenDiskSizeInGB := systenDiskSizeInGB |}.

(** The image record the pool loop adds to the images. *)
Definition poolImage (pool : WorkerPool) (e : poolEnv) : MachineImage :=
  {| mi_Name := image_Name (pool_MachineImage pool);
     mi_Version := image_Version (pool_MachineImage pool);
     mi_Path := env_machineImagePath e;
     mi_GuestID := env_machineImageGuestID e |}.

(** The rows one pool contributes: the zone loop without its accumulators. *)
Fixpoint zoneRows (w : workerDelegate) (e : poolEnv) (zones : list string) (zoneIndex : nat)
    : result (list (MachineDeployment * MachineClass)) :=
  match zones with
  | [] => Ok []
  | zone :: zones' =>
      do row <- zoneStep w e zoneIndex zone;
      do rows <- zoneRows w e zones' (S zoneIndex);
      Ok (row :: rows)
  end.

(** The pool loop without its accumulators: per pool, what was looked up
    and the rows of its zones. *)
Fixpoint poolBlocks (w : workerDelegate) (infra : InfrastructureStatus) (segment : string)
    (secretData : gmap string bytes) (pools : list WorkerPool)
    : result (list (poolEnv * list (MachineDeployment * MachineClass))) :=
  match pools with
  | [] => Ok []
  | pool :: pools' =>
      do e <- poolLookups w infra segment secretData pool;
      do rows <- zoneRows w e (pool_Zones pool) 0;
      do blocks <- poolBlocks w infra segment secretData pools';
      Ok ((e, rows) :: blocks)
  end.

End delegate.

(** The class record [zoneStep] builds when the zone has the configuration
    [zoneConfig]: literal, optional fields, name, merged secret. *)
Definition zoneClass (w : workerDelegate) (e : poolEnv) (zoneConfig : ZoneConfig)
    (zoneIndex : nat) : MachineClass :=
  <["secret" := VMap (mergeSecretData (env_secretData e)
       {[ "cloudConfig" := VString (go_string (pool_UserData (env_pool e))) ]})]>
  (<["name" := VString (className w (env_pool e) (env_workerPoolHash e) zoneIndex)]>
  (addOptionals e zoneConfig (machineClassLiteral w e zoneConfig))).

(** ** Varying the worker specification *)

(** The delegate with another status blob, SSH key and pool list; what the
    credential step reads is kept. *)
Definition withSpec (w : workerDelegate) (status : option bytes) (sshPublicKey : bytes)
    (pools : list WorkerPool) : workerDelegate :=
  {| worker := {| Namespace := Namespace (worker w);
                  SecretRef := SecretRef (worker w);
                  InfrastructureProviderStatus := status;
                  SSHPublicKey := sshPublicKey;
                  Pools := pools |};
     cluster := cluster w;
     cloudProfileConfig := cloudProfileConfig w;
     machineImages := machineImages w;
     machineDeployments := machineDeployments w;
     machineClasses := machineClasses w |}.

(** The delegate with another pool list. *)
Definition withPools (w : workerDelegate) (pools : list WorkerPool) : workerDelegate :=
  withSpec w (InfrastructureProviderStatus (worker w)) (SSHPublicKey (worker w)) pools.

(** ** Positions in the output *)

(** Number of (pool, zone) pairs that precede pool [j]. *)
Definition zoneOffset (pools : list WorkerPool) (j : nat) : nat :=
  sum_list ((λ pool, length (pool_Zones pool)) <$> take j pools).

(** Total number of (pool, zone) pairs. *)
Definition zoneCount (pools : list WorkerPool) : nat :=
  sum_list ((λ pool, length (pool_Zones pool)) <$> pools).

(** The deployment and the class that [w'] holds for zone [i] of pool [j]. *)
Definition generatedAt (w w' : workerDelegate) (j i : nat)
    (md : MachineDeployment) (mc : MachineClass) : Prop :=
  slice_list (machineDeployments w') !! (zoneOffset (Pools (worker w)) j + i)%nat = Some md
  ∧ slice_list (machineClasses w') !! (zoneOffset (Pools (worker w)) j + i)%nat = Some mc.

(** The deployments of pool [j], in zone order. *)
Definition poolDeployments (w w' : workerDelegate) (j : nat) (pool : WorkerPool)
    : list MachineDeployment :=
  take (length (pool_Zones pool))
       (drop (zoneOffset (Pools (worker w)) j) (slice_list (machineDeployments w'))).

(** Names of the generated classes: the value under the key [name]. *)
Definition classNames (mcs : slice MachineClass) : list (option value) :=
  (λ mc : MachineClass, mc !! "name") <$> slice_list mcs.

(** An optional field of a class record: absent for the empty string,
    otherwise present with the value. *)
Definition optionalField (mc : MachineClass) (key val : string) : Prop :=
  (val = EmptyString → mc !! key = None)
  ∧ (val ≠ EmptyString → mc !! key = Some (VString val)).

(** The single-entry secret map a class starts with. *)
Definition userDataSecret (pool : WorkerPool) : gmap string value :=
  {[ "cloudConfig" := VString (go_string (pool_UserData pool)) ]}.

(** ** Even shares *)

(** [c] is the quotient [total / zones] rounded up, [f] rounded down. *)
Definition isCeil (total zones c : Z) : Prop := zones * (c - 1) < total ≤ zones * c.
Definition isFloor (total zones f : Z) : Prop := zones * f ≤ total < zones * (f + 1).

(** The share of zone [i]: the ceiling for the first [total mod zones] zones,
    the floor for the others. *)
Definition evenShare (i total zones share : Z) : Prop :=
  (i < total `mod` zones → isCeil total zones share)
  ∧ (total `mod` zones ≤ i → isFloor total zones share).

(** The integer a rolling-update bound stands for against [base]: itself, or
    the percentage of [base] rounded up. *)
Definition resolvesTo (v : IntOrPercent) (base r : Z) : Prop :=
  match v with
  | FromInt n => r = n
  | FromPercent p => isCeil (p * base) 100 r
  end.

Definition sumZ (l : list Z) : Z := foldr Z.add 0 l.

Definition intValue (v : IntOrPercent) : option Z :=
  match v with
  | FromInt n => Some n
  | FromPercent _ => None
  end.

(** ** Outcomes and look-ups *)

(** A call that returned a value. *)
Definition isOk {A} (r : result A) : Prop := ∃ a, r = Ok a.

(** [mt] is the first machine type of the catalogue named [name]. *)
Definition firstNamed (name : string) (catalogue : list MachineType) (mt : MachineType)
    : Prop :=
  ∃ pre post, catalogue = pre ++ mt :: post
    ∧ Forall (λ m, mt_Name m ≠ name) pre
    ∧ mt_Name mt = name.

(** The delegate with another machine type catalogue. *)
Definition withMachineTypes (w : workerDelegate) (catalogue : list MachineType)
    : workerDelegate :=
  {| worker := worker w;
     cluster := {| Shoot_Spec_Region := Shoot_Spec_Region (cluster w);
                   CloudProfile_Spec_MachineTypes := catalogue |};
     cloudProfileConfig := cloudProfileConfig w;
     machineImages := machineImages w;
     machineDeployments := machineDeployments w;
     machineClasses := machineClasses w |}.

(** The keys every class record has, and the keys it may have. *)
Definition mandatoryKeys : list string :=
  ["region"; "sshKeys"; "datacenter"; "network"; "templateVM"; "numCpus"; "memory";
   "systemDisk"; "tags"; "secret"; "name"].
Definition optionalKeys : list string :=
  ["folder"; "guestId"; "hostSystem"; "resourcePool"; "computeCluster"; "datastore";
   "datastoreCluster"; "switchUuid"].

(** The three look-ups of a pool return a value. *)
Definition poolResolvable `{Collaborators} (w : workerDelegate) (pool : WorkerPool) : Prop :=
  isOk (WorkerPoolHash pool (cluster w))
  ∧ isOk (findMachineImage w (image_Name (pool_MachineImage pool))
                             (image_Version (pool_MachineImage pool)))
  ∧ isOk (extractMachineValues w (pool_MachineType pool)).

(** The error with which the look-ups of a pool leave the generation: the
    hash error or, the hash found, the image error, both as they are, or, both
    found, the error of the machine values wrapped. *)
Definition poolLookupError `{Collaborators} (w : workerDelegate) (pool : WorkerPool)
    (e : error) : Prop :=
  WorkerPoolHash pool (cluster w) = Err e
  ∨ (isOk (WorkerPoolHash pool (cluster w))
     ∧ findMachineImage w (image_Name (pool_MachineImage pool))
                          (image_Version (pool_MachineImage pool)) = Err e)
  ∨ (isOk (WorkerPoolHash pool (cluster w))
     ∧ isOk (findMachineImage w (image_Name (pool_MachineImage pool))
                                (image_Version (pool_MachineImage pool)))
     ∧ ∃ e1, extractMachineValues w (pool_MachineType pool) = Err e1
             ∧ e = ErrWrap e1 "extracting machine values failed").

(** Every zone of the pool has a zone configuration. *)
Definition zonesConfigured (infra : InfrastructureStatus) (pool : WorkerPool) : Prop :=
  ∀ zone, zone ∈ pool_Zones pool →
          is_Some (ZoneConfigs (infra_VsphereConfig infra) !! zone).

(** [zone] of [pool] is the first zone without zone configuration, in the
    order of the pools and, within a pool, of its zones. *)
Definition firstMissingZone (infra : InfrastructureStatus) (pools : list WorkerPool)
    (pre : list WorkerPool) (pool : WorkerPool) (post : list WorkerPool)
    (zpre : list string) (zone : string) (zpost : list string) : Prop :=
  pools = pre ++ pool :: post
  ∧ (∀ p, p ∈ pre → zonesConfigured infra p)
  ∧ pool_Zones pool = zpre ++ zone :: zpost
  ∧ (∀ z, z ∈ zpre → is_Some (ZoneConfigs (infra_VsphereConfig infra) !! z))
  ∧ ZoneConfigs (infra_VsphereConfig infra) !! zone = None.

(** The steps before the pool loop pass: credential fields, infrastructure
    status, segment name, SSH key. *)
Definition preludeOk `{Collaborators} (seed : Seed) (w : workerDelegate)
    (sd : gmap string bytes) (infra : InfrastructureStatus) (seg : string) : Prop :=
  generateMachineClassSecretData seed w = Ok sd
  ∧ GetInfrastructureStatus (Namespace (worker w))
                            (InfrastructureProviderStatus (worker w)) = Ok infra
  ∧ segmentName infra = Some seg
  ∧ SSHPublicKey (worker w) ≠ [].

(** ** A concrete cluster

    One small landscape on which the definitions are run: a region with
    three zones, one machine type and the pool of the design's scenario. *)
Module Demo.

Definition zoneConfig (datacenter : string) : ZoneConfig :=
  {| Datacenter := datacenter; HostSystem := EmptyString; ResourcePool := "pool-1";
     ComputeCluster := EmptyString; Datastore := "ds-1";
     DatastoreCluster := EmptyString; SwitchUUID := EmptyString |}.

Definition vsphereConfig : VsphereConfig :=
  {| Folder := "gardener"; Region := "eu-1";
     ZoneConfigs := <["z1" := zoneConfig "dc-1"]> (<["z2" := zoneConfig "dc-2"]>
                    (<["z3" := zoneConfig "dc-3"]> ∅)) |}.

Definition infra : InfrastructureStatus :=
  {| infra_VsphereConfig := vsphereConfig;
     infra_NSXTInfraState := Some {| SegmentName := Some "segment-1" |} |}.

Definition infraNoSegment : InfrastructureStatus :=
  {| infra_VsphereConfig := vsphereConfig;
     infra_NSXTInfraState := Some {| SegmentName := None |} |}.

Definition collaborators (status : result InfrastructureStatus) : Collaborators :=
  {| vsphere_Host := "vsphereHost";
     vsphere_Username := "vsphereUsername";
     vsphere_Password := "vspherePassword";
     vsphere_InsecureSSL := "vsphereInsecureSSL";
     machineclassChartPath := "charts/internal/machineclass";
     ExtractCredentials := λ secret,
       match secret !! "username", secret !! "password" with
       | Some u, Some p =>
           Ok {| VsphereMCM := {| Username := go_string u; Password := go_string p |} |}
       | _, _ => Err (ErrCollaborator UpstreamFailure "incomplete credentials")
       end;
     FindRegion := λ name config,
       List.find (λ r, bool_decide (region_Name r = name)) (Regions config);
     GetInfrastructureStatus := λ _ _, status;
     WorkerPoolHash := λ pool _, Ok "1a2b3";
     findMachineImage := λ _ name version,
       Ok ("images/" +:+ name +:+ "-" +:+ version, "otherLinux64Guest") |}.

Definition seed : Seed :=
  {| GetSecretByReference := λ _,
       Ok (<["username" := go_bytes "admin"]> {[ "password" := go_bytes "s3cret" ]});
     Apply := λ _ _ _ _, None |}.

Definition seedWithoutSecret : Seed :=
  {| GetSecretByReference := λ _, Err (ErrCollaborator UpstreamFailure "secret not found");
     Apply := λ _ _ _ _, None |}.

Definition quantity (n : Z) (s : QuantitySuffix) : Quantity :=
  {| q_mantissa := n; q_suffix := s |}.

Definition standard : MachineType :=
  {| mt_Name := "std-02"; mt_CPU := quantity 2 NoSuffix; mt_Memory := quantity 4 Gi;
     mt_Storage := None |}.

Definition smallDisk : MachineType :=
  {| mt_Name := "std-02-small"; mt_CPU := quantity 2 NoSuffix; mt_Memory := quantity 4 Gi;
     mt_Storage := Some {| StorageSize := quantity 5 Gi |} |}.

Definition pool (name : string) (zones : list string) : WorkerPool :=
  {| pool_Name := name; pool_MachineType := "std-02";
     pool_MachineImage := {| image_Name := "coreos"; image_Version := "2191.5.0" |};
     pool_Zones := zones;
     pool_Minimum := 3; pool_Maximum := 6;
     pool_MaxSurge := FromPercent 50; pool_MaxUnavailable := FromInt 1;
     pool_Labels := ∅; pool_Annotations := ∅; pool_Taints := [];
     pool_UserData := go_bytes "#cloud-config" |}.

Definition worker1 : WorkerPool := pool "worker1" ["z1"; "z2"; "z3"].

Definition delegate (region : string) (sshPublicKey : bytes) (pools : list WorkerPool)
    : workerDelegate :=
  {| worker := {| Namespace := "shoot--foo--bar";
                  SecretRef := {| secret_Name := "cloudprovider";
                                  secret_Namespace := "shoot--foo--bar" |};
                  InfrastructureProviderStatus := None;
                  SSHPublicKey := sshPublicKey;
                  Pools := pools |};
     cluster := {| Shoot_Spec_Region := region;
                   CloudProfile_Spec_MachineTypes := [smallDisk; standard] |};
     cloudProfileConfig :=
       {| Regions := [ {| region_Name := "eu-1"; VsphereHost := "vcenter.example";
                          VsphereInsecureSSL := true |} ] |};
     machineImages := [];
     machineDeployments := None;
     machineClasses := None |}.

Definition sshKey : bytes := go_bytes "ssh-rsa AAAA".

Definition healthy : Collaborators := collaborators (Ok infra).

(** The delegate of the scenario before and after generation. *)
Definition w1 : workerDelegate := delegate "eu-1" sshKey [worker1].
Definition w1' : workerDelegate := (generateMachineConfig (H:=healthy) seed w1).1.

(** A worker without pools, before and after generation. *)
Definition wEmpty : workerDelegate := delegate "eu-1" sshKey [].
Definition wEmpty' : workerDelegate := (generateMachineConfig (H:=healthy) seed wEmpty).1.

(** The same pool listed twice. *)
Definition wTwice : workerDelegate := delegate "eu-1" sshKey [worker1; worker1].
Definition wTwice' : workerDelegate := (generateMachineConfig (H:=healthy) seed wTwice).1.

(** Variants: a status without segment name, no SSH key, an unknown
    region, a pool that names a zone without configuration. *)
Definition unsegmented : Collaborators := collaborators (Ok infraNoSegment).
Definition wNoKey : workerDelegate := delegate "eu-1" [] [worker1].
Definition wMars : workerDelegate := delegate "mars" sshKey [worker1].
Definition worker2 : WorkerPool := pool "worker2" ["z1"; "z9"].
Definition wBadZone : workerDelegate := delegate "eu-1" sshKey [worker1; worker2].
Definition wBadZoneNoKey : workerDelegate := delegate "eu-1" [] [worker1; worker2].

(** More machine types: a second entry named like [standard], a type with
    a disk, a type with half a CPU's worth of memory. *)
Definition shadowed : MachineType :=
  {| mt_Name := "std-02"; mt_CPU := quantity 8 NoSuffix; mt_Memory := quantity 32 Gi;
     mt_Storage := None |}.
Definition withDisk : MachineType :=
  {| mt_Name := "std-02-disk"; mt_CPU := quantity 2 NoSuffix; mt_Memory := quantity 4 Gi;
     mt_Storage := Some {| StorageSize := quantity 50 Gi |} |}.
Definition tinyMemory : MachineType :=
  {| mt_Name := "tiny"; mt_CPU := quantity 1 NoSuffix; mt_Memory := quantity 512 Ki;
     mt_Storage := None |}.
Definition wCatalogue : workerDelegate :=
  withMachineTypes (delegate "eu-1" sshKey [])
                   [standard; shadowed; withDisk; tinyMemory].

(** A pool without zones whose machine type is not in the catalogue, after
    a pool that is fine. *)
Definition worker3 : WorkerPool :=
  {| pool_Name := "worker3"; pool_MachineType := "std-99";
     pool_MachineImage := {| image_Name := "coreos"; image_Version := "2191.5.0" |};
     pool_Zones := [];
     pool_Minimum := 0; pool_Maximum := 0;
     pool_MaxSurge := FromInt 0; pool_MaxUnavailable := FromInt 0;
     pool_Labels := ∅; pool_Annotations := ∅; pool_Taints := [];
     pool_UserData := [] |}.
Definition wBadType : workerDelegate := delegate "eu-1" sshKey [worker1; worker3].

(** A seed on which applying the chart fails. *)
Definition seedApplyFails : Seed :=
  {| GetSecretByReference := GetSecretByReference seed;
     Apply := λ _ _ _ _, Some (ErrCollaborator UpstreamFailure "apply failed") |}.

(** Quantities the parser holds as decimals. *)
Definition hugeDisk : MachineType :=
  {| mt_Name := "huge-disk"; mt_CPU := quantity 2 NoSuffix; mt_Memory := quantity 4 Gi;
     mt_Storage := Some {| StorageSize := quantity 100000 Gi |} |}.
Definition hugeMemory : MachineType :=
  {| mt_Name := "huge-memory"; mt_CPU := quantity 2 NoSuffix;
     mt_Memory := quantity 100 Ti; mt_Storage := None |}.
Definition wHuge : workerDelegate :=
  withMachineTypes (delegate "eu-1" sshKey []) [hugeDisk; hugeMemory].

(** A pool with a zone without configuration, followed by a pool whose
    machine type is not in the catalogue. *)
Definition wBadZoneThenType : workerDelegate :=
  delegate "eu-1" sshKey [worker2; worker3].

End Demo.
(** * Properties *)

(** ** Results *)

Lemma bind_Ok {A B} (m : result A) (k : A → result B) b :
  bind m k = Ok b → ∃ a, m = Ok a ∧ k a = Ok b.
Proof. destruct m as [a|e]; simpl; [eauto | discriminate]. Qed.

Lemma bind_Err {A B} (m : result A) (k : A → result B) e :
  bind m k = Err e → m = Err e ∨ ∃ a, m = Ok a ∧ k a = Err e.
Proof. destruct m as [a|e']; simpl; [eauto | intros [= ->]; auto]. Qed.

Lemma wrap_err_Ok {A} (m : result A) msg a : wrap_err m msg = Ok a → m = Ok a.
Proof. destruct m; simpl; congruence. Qed.

Lemma go_string_bytes s : go_string (go_bytes s) = s.
Proof. apply String.string_of_list_byte_of_string. Qed.

(** ** Slices *)

Lemma slice_list_extend {A} (s : slice A) l :
  slice_list (slice_extend s l) = slice_list s ++ l.
Proof. destruct l; simpl; [by rewrite app_nil_r | done]. Qed.

Lemma slice_extend_append {A} (s : slice A) x l :
  slice_extend (slice_append s x) l = slice_extend s (x :: l).
Proof.
  destruct l as [|y l]; simpl; [done|].
  by rewrite <- app_assoc.
Qed.

Lemma slice_extend_Some {A} (l0 l : list A) : slice_extend (Some l0) l = Some (l0 ++ l).
Proof. destruct l; simpl; [by rewrite app_nil_r | done]. Qed.

Lemma slice_extend_extend {A} (s : slice A) l1 l2 :
  slice_extend (slice_extend s l1) l2 = slice_extend s (l1 ++ l2).
Proof.
  destruct l1 as [|x l1], l2 as [|y l2]; simpl; rewrite ?app_nil_r; try done.
  by rewrite <- app_assoc.
Qed.

Lemma lookup_concat_offset {A} (ls : list (list A)) j l i x :
  ls !! j = Some l → l !! i = Some x →
  concat ls !! (sum_list (length <$> take j ls) + i)%nat = Some x.
Proof.
  revert j. induction ls as [|l0 ls IH]; intros [|j] Hj Hi; simplify_eq/=.
  - by apply lookup_app_l_Some.
  - rewrite <- Nat.add_assoc, lookup_app_r by lia.
    replace (length l0 + _ - length l0)%nat
      with (sum_list (length <$> take j ls) + i)%nat by lia.
    eauto.
Qed.

(** ** Machine class records *)

Lemma lookup_addOptional_ne key val (m : MachineClass) k :
  key ≠ k → addOptional key val m !! k = m !! k.
Proof.
  intros Hne. unfold addOptional. case_decide; [done|].
  by rewrite lookup_insert_ne.
Qed.

Lemma lookup_addOptional_eq key val (m : MachineClass) :
  addOptional key val m !! key
  = if decide (val = EmptyString) then m !! key else Some (VString val).
Proof.
  unfold addOptional. case_decide; [done|]. by rewrite lookup_insert_eq.
Qed.

Lemma mergeSecretData_union (sd : gmap string bytes) (secretMap : gmap string value) :
  mergeSecretData sd secretMap = ((λ v, VString (go_string v)) <$> sd) ∪ secretMap.
Proof.
  unfold mergeSecretData.
  apply (map_fold_weak_ind
           (λ r (m : gmap string bytes), r = ((λ v, VString (go_string v)) <$> m) ∪ secretMap)).
  - by rewrite fmap_empty, (left_id_L ∅ (∪)).
  - intros k v m r _ ->. by rewrite fmap_insert, insert_union_l.
Qed.

Lemma lookup_addOptionals_other e zc (m : MachineClass) k :
  k ∉ ["folder"; "guestId"; "hostSystem"; "resourcePool"; "computeCluster";
       "datastore"; "datastoreCluster"; "switchUuid"] →
  addOptionals e zc m !! k = m !! k.
Proof.
  intros Hk. unfold addOptionals.
  rewrite !lookup_addOptional_ne; [done|intros <-; apply Hk; set_solver..].
Qed.

Lemma zoneStep_eq w e i zone :
  zoneStep w e i zone
  = match ZoneConfigs (infra_VsphereConfig (env_infra e)) !! zone with
    | None => Err (ErrZoneConfigNotFound zone)
    | Some zc => Ok (zoneDeployment w e i, zoneClass w e zc i)
    end.
Proof.
  unfold zoneStep. destruct (ZoneConfigs _ !! zone) as [zc|]; [|done].
  rewrite lookup_insert_ne by done.
  rewrite lookup_addOptionals_other by (by rewrite !elem_of_cons, elem_of_nil; intros H; repeat destruct H as [H|H]; try discriminate).
  unfold machineClassLiteral. rewrite lookup_insert_eq. done.
Qed.

(** ** The loops *)

Lemma zonesLoop_rows w e zones k mds mcs :
  zonesLoop w e zones k mds mcs
  = do rows <- zoneRows w e zones k;
    Ok (slice_extend mds rows.*1, slice_extend mcs rows.*2).
Proof.
  revert k mds mcs. induction zones as [|zone zones IH]; intros k mds mcs; simpl; [done|].
  destruct (zoneStep w e k zone) as [[md mc]|err]; simpl; [|done].
  rewrite IH. destruct (zoneRows w e zones (S k)) as [rows|err]; simpl; [|done].
  by rewrite !slice_extend_append.
Qed.

Lemma zoneRows_length w e zones k rows :
  zoneRows w e zones k = Ok rows → length rows = length zones.
Proof.
  revert k rows. induction zones as [|zone zones IH]; intros k rows; simpl.
  - by intros [= <-].
  - intros (row & _ & (rows' & Hrows & [= <-])%bind_Ok)%bind_Ok.
    simpl. f_equal. eauto.
Qed.

Lemma zoneRows_lookup w e zones k rows i zone :
  zoneRows w e zones k = Ok rows → zones !! i = Some zone →
  ∃ row, rows !! i = Some row ∧ zoneStep w e (k + i) zone = Ok row.
Proof.
  revert k rows i. induction zones as [|z zones IH]; intros k rows i; simpl; [done|].
  intros (row & Hrow & (rows' & Hrows & [= <-])%bind_Ok)%bind_Ok Hi.
  destruct i as [|i]; simplify_eq/=.
  - exists row. by rewrite Nat.add_0_r.
  - destruct (IH _ _ _ Hrows Hi) as (row' & ? & ?).
    exists row'. by rewrite Nat.add_succ_r.
Qed.

Lemma zoneRows_Err w e zones k err :
  zoneRows w e zones k = Err err →
  ∃ zone, zone ∈ zones ∧ err = ErrZoneConfigNotFound zone
          ∧ ZoneConfigs (infra_VsphereConfig (env_infra e)) !! zone = None.
Proof.
  revert k. induction zones as [|z zones IH]; intros k; simpl; [done|].
  intros [Hz|(row & _ & [Hrows|(rows & _ & ?)]%bind_Err)]%bind_Err; [| |done].
  - rewrite zoneStep_eq in Hz.
    destruct (ZoneConfigs _ !! z) eqn:Hzc; simplify_eq. exists z. set_solver.
  - destruct (IH _ Hrows) as (zone & ? & ? & ?). exists zone. set_solver.
Qed.

Lemma zoneRows_missing w e zones k zone :
  zone ∈ zones → ZoneConfigs (infra_VsphereConfig (env_infra e)) !! zone = None →
  ∃ err, zoneRows w e zones k = Err err.
Proof.
  intros Hin Hzc. destruct (zoneRows w e zones k) as [rows|err] eqn:Hrows; [|eauto].
  apply list_elem_of_lookup in Hin as [i Hi].
  destruct (zoneRows_lookup _ _ _ _ _ _ _ Hrows Hi) as (row & _ & Hstep).
  rewrite zoneStep_eq, Hzc in Hstep. done.
Qed.

Section loops.
Context `{Collaborators}.

Lemma poolLookups_pool w infra seg sd pool e :
  poolLookups w infra seg sd pool = Ok e →
  env_pool e = pool ∧ env_infra e = infra ∧ env_segment e = seg ∧ env_secretData e = sd
  ∧ env_zoneLen e = int32 (Z.of_nat (length (pool_Zones pool)))
  ∧ WorkerPoolHash pool (cluster w) = Ok (env_workerPoolHash e)
  ∧ findMachineImage w (image_Name (pool_MachineImage pool))
                       (image_Version (pool_MachineImage pool))
    = Ok (env_machineImagePath e, env_machineImageGuestID e)
  ∧ extractMachineValues w (pool_MachineType pool)
    = Ok (env_numCpus e, env_memoryInMB e, env_systenDiskSizeInGB e).
Proof.
  unfold poolLookups.
  intros (hash & Hhash & ([path guest] & Himg & ([[cpu mem] disk] & Hval%wrap_err_Ok & [= <-])%bind_Ok)%bind_Ok)%bind_Ok.
  simpl. by rewrite Hhash, Himg, Hval.
Qed.

Lemma poolsLoop_cons w infra seg sd pool pools mds mcs images :
  poolsLoop w infra seg sd (pool :: pools) mds mcs images
  = do e <- poolLookups w infra seg sd pool;
    do (mds', mcs') <- zonesLoop w e (pool_Zones pool) 0 mds mcs;
    poolsLoop w infra seg sd pools mds' mcs' (appendMachineImage images (poolImage pool e)).
Proof.
  simpl. unfold poolLookups.
  destruct (WorkerPoolHash pool (cluster w)) as [hash|]; simpl; [|done].
  destruct (findMachineImage w _ _) as [[path guest]|]; simpl; [|done].
  destruct (extractMachineValues w _) as [[[cpu mem] disk]|]; simpl; done.
Qed.

Lemma poolsLoop_blocks w infra seg sd pools mds mcs images :
  match poolsLoop w infra seg sd pools mds mcs images with
  | Ok (mds', mcs', _) =>
      ∃ blocks, poolBlocks w infra seg sd pools = Ok blocks
        ∧ mds' = slice_extend mds (concat blocks.*2).*1
        ∧ mcs' = slice_extend mcs (concat blocks.*2).*2
  | Err err => poolBlocks w infra seg sd pools = Err err
  end.
Proof.
  revert mds mcs images.
  induction pools as [|pool pools IH]; intros mds mcs images.
  { by exists []. }
  rewrite poolsLoop_cons. simpl.
  destruct (poolLookups w infra seg sd pool) as [e|err]; simpl; [|done].
  rewrite zonesLoop_rows.
  destruct (zoneRows w e (pool_Zones pool) 0) as [rows|err]; simpl; [|done].
  specialize (IH (slice_extend mds rows.*1) (slice_extend mcs rows.*2)
                 (appendMachineImage images (poolImage pool e))).
  destruct (poolsLoop _ _ _ _ pools _ _ _) as [[[mds' mcs'] images']|err].
  - destruct IH as (blocks & -> & -> & ->). exists ((e, rows) :: blocks).
    split; [done|]. simpl. by rewrite !fmap_app, !slice_extend_extend.
  - by rewrite IH.
Qed.

Lemma poolBlocks_lookup w infra seg sd pools blocks j pool :
  poolBlocks w infra seg sd pools = Ok blocks → pools !! j = Some pool →
  ∃ e rows, blocks !! j = Some (e, rows)
    ∧ poolLookups w infra seg sd pool = Ok e
    ∧ zoneRows w e (pool_Zones pool) 0 = Ok rows.
Proof.
  revert blocks j. induction pools as [|p pools IH]; intros blocks j; simpl; [done|].
  intros (e & He & (rows & Hrows & (blocks' & Hblocks & [= <-])%bind_Ok)%bind_Ok)%bind_Ok Hj.
  destruct j as [|j]; simplify_eq/=; eauto.
Qed.

Lemma poolBlocks_lengths w infra seg sd pools blocks :
  poolBlocks w infra seg sd pools = Ok blocks →
  length <$> blocks.*2 = (λ pool, length (pool_Zones pool)) <$> pools.
Proof.
  revert blocks. induction pools as [|p pools IH]; intros blocks; simpl.
  { by intros [= <-]. }
  intros (e & He & (rows & Hrows & (blocks' & Hblocks & [= <-])%bind_Ok)%bind_Ok)%bind_Ok.
  simpl. f_equal; [by eapply zoneRows_length | eauto].
Qed.

End loops.

(** ** Generation as a whole *)

Section generation.
Context `{Collaborators}.

Lemma generateMachineConfig_Err seed w w' err :
  generateMachineConfig seed w = (w', Some err) → w' = w ∧ generate seed w = Err err.
Proof.
  unfold generateMachineConfig.
  destruct (generate seed w) as [[[mds mcs] images]|err']; intros [= <- <-]; done.
Qed.

Lemma generate_Err_unchanged seed w err :
  generate seed w = Err err → generateMachineConfig seed w = (w, Some err).
Proof. unfold generateMachineConfig. by intros ->. Qed.

Lemma generateMachineConfig_Ok seed w w' :
  generateMachineConfig seed w = (w', None) →
  ∃ sd infra seg blocks,
    generateMachineClassSecretData seed w = Ok sd
    ∧ GetInfrastructureStatus (Namespace (worker w))
                              (InfrastructureProviderStatus (worker w)) = Ok infra
    ∧ segmentName infra = Some seg
    ∧ SSHPublicKey (worker w) ≠ []
    ∧ poolBlocks w infra seg sd (Pools (worker w)) = Ok blocks
    ∧ worker w' = worker w
    ∧ machineDeployments w' = Some (concat blocks.*2).*1
    ∧ machineClasses w' = slice_extend None (concat blocks.*2).*2.
Proof.
  unfold generateMachineConfig.
  destruct (generate seed w) as [[[mds mcs] images]|err] eqn:Hgen; intros [= <-].
  unfold generate in Hgen.
  apply bind_Ok in Hgen as (sd & Hsd & Hgen).
  apply bind_Ok in Hgen as (infra & Hinfra & Hgen).
  destruct (segmentName infra) as [seg|] eqn:Hseg; [|done].
  case_bool_decide as Hssh; [done|].
  pose proof (poolsLoop_blocks w infra seg sd (Pools (worker w)) (Some []) None []) as Hloop.
  rewrite Hgen in Hloop. destruct Hloop as (blocks & Hblocks & -> & ->).
  exists sd, infra, seg, blocks. simpl. rewrite slice_extend_Some. simpl.
  repeat split; try done.
  intros Heq. apply Hssh. by rewrite Heq.
Qed.

Lemma generated_lookup seed w w' j pool i zone :
  generateMachineConfig seed w = (w', None) →
  Pools (worker w) !! j = Some pool → pool_Zones pool !! i = Some zone →
  ∃ sd infra seg e zc,
    generateMachineClassSecretData seed w = Ok sd
    ∧ GetInfrastructureStatus (Namespace (worker w))
                              (InfrastructureProviderStatus (worker w)) = Ok infra
    ∧ segmentName infra = Some seg
    ∧ poolLookups w infra seg sd pool = Ok e
    ∧ ZoneConfigs (infra_VsphereConfig infra) !! zone = Some zc
    ∧ generatedAt w w' j i (zoneDeployment w e i) (zoneClass w e zc i).
Proof.
  intros (sd & infra & seg & blocks & Hsd & Hinfra & Hseg & _ & Hblocks & _ & Hmds & Hmcs)
         %generateMachineConfig_Ok Hj Hi.
  destruct (poolBlocks_lookup _ _ _ _ _ _ _ _ Hblocks Hj) as (e & rows & Hb & He & Hrows).
  destruct (zoneRows_lookup _ _ _ _ _ _ _ Hrows Hi) as (row & Hrow & Hstep).
  rewrite zoneStep_eq in Hstep.
  destruct (poolLookups_pool _ _ _ _ _ _ He) as (_ & Hinf & _).
  rewrite Hinf in Hstep.
  destruct (ZoneConfigs (infra_VsphereConfig infra) !! zone) as [zc|] eqn:Hzc; [|done].
  injection Hstep as <-.
  exists sd, infra, seg, e, zc. do 5 (split; [done|]).
  assert (Hrow1 : (concat blocks.*2) !! (zoneOffset (Pools (worker w)) j + i)%nat
                  = Some (zoneDeployment w e i, zoneClass w e zc i)).
  { unfold zoneOffset.
    rewrite fmap_take, <- (poolBlocks_lengths _ _ _ _ _ _ Hblocks), <- fmap_take.
    eapply lookup_concat_offset; [|done]. by rewrite list_lookup_fmap, Hb. }
  unfold generatedAt. rewrite Hmds, Hmcs, slice_list_extend. simpl.
  by rewrite !list_lookup_fmap, Hrow1.
Qed.

End generation.

(** ** Running the model *)

Example demo_generation :
  let w := Demo.delegate "eu-1" Demo.sshKey [Demo.worker1] in
  let w' := (generateMachineConfig (H:=Demo.collaborators (Ok Demo.infra)) Demo.seed w).1 in
  (λ md, (md_Name md, md_Minimum md, md_Maximum md, md_MaxSurge md, md_MaxUnavailable md))
    <$> slice_list (machineDeployments w')
  = [ ("shoot--foo--bar-worker1-z1", 1, 2, FromInt 1, FromInt 1);
      ("shoot--foo--bar-worker1-z2", 1, 2, FromInt 1, FromInt 0);
      ("shoot--foo--bar-worker1-z3", 1, 2, FromInt 1, FromInt 0) ].
Proof. vm_compute. reflexivity. Qed.

(** ** Arithmetic of the distribution *)

Lemma int32_small z : - 2 ^ 31 ≤ z < 2 ^ 31 → int32 z = z.
Proof. intros Hz. unfold int32. rewrite Z.mod_small; lia. Qed.

Lemma ceil_div_isCeil total n : 0 < n → isCeil total n (ceil_div total n).
Proof.
  intros Hn. unfold isCeil, ceil_div.
  pose proof (Z.div_mod (- total) n ltac:(lia)) as Hdm.
  pose proof (Z.mod_pos_bound (- total) n Hn). lia.
Qed.

Lemma div_isFloor total n : 0 < n → isFloor total n (total `div` n).
Proof.
  intros Hn. unfold isFloor.
  pose proof (Z.div_mod total n ltac:(lia)) as Hdm.
  pose proof (Z.mod_pos_bound total n Hn). lia.
Qed.

Lemma isCeil_unique total n c c' : 0 < n → isCeil total n c → isCeil total n c' → c = c'.
Proof. unfold isCeil. nia. Qed.

Lemma isFloor_unique total n f f' : 0 < n → isFloor total n f → isFloor total n f' → f = f'.
Proof. unfold isFloor. nia. Qed.

Lemma DistributeOverZones_evenShare i total n :
  0 < n → evenShare i total n (DistributeOverZones i total n).
Proof.
  intros Hn. unfold evenShare, DistributeOverZones.
  case_bool_decide; split; intros; try lia;
    [by apply ceil_div_isCeil | by apply div_isFloor].
Qed.

Lemma DistributeOverZones_floor_plus i total n :
  0 < n → 0 ≤ i →
  DistributeOverZones i total n
  = total `div` n + (if bool_decide (i < total `mod` n) then 1 else 0).
Proof.
  intros Hn Hi. unfold DistributeOverZones. case_bool_decide as Hlt; [|lia].
  apply (isCeil_unique total n); [done|by apply ceil_div_isCeil|].
  unfold isCeil.
  pose proof (Z.div_mod total n ltac:(lia)) as Hdm.
  pose proof (Z.mod_pos_bound total n Hn). lia.
Qed.

Lemma sumZ_app l1 l2 : sumZ (l1 ++ l2) = sumZ l1 + sumZ l2.
Proof. unfold sumZ. induction l1 as [|x l1 IH]; simpl; lia. Qed.

Lemma sum_shares_prefix total n (k : nat) :
  0 < n →
  sumZ ((λ i : nat, DistributeOverZones (Z.of_nat i) total n) <$> seq 0 k)
  = Z.of_nat k * (total `div` n) + Z.min (Z.of_nat k) (total `mod` n).
Proof.
  intros Hn. pose proof (Z.mod_pos_bound total n Hn).
  induction k as [|k IH].
  - simpl. lia.
  - rewrite seq_S, fmap_app, sumZ_app, IH. simpl.
    rewrite DistributeOverZones_floor_plus by lia.
    case_bool_decide; lia.
Qed.

Lemma sum_shares total (k : nat) :
  (0 < k)%nat →
  sumZ ((λ i : nat, DistributeOverZones (Z.of_nat i) total (Z.of_nat k)) <$> seq 0 k) = total.
Proof.
  intros Hk. rewrite sum_shares_prefix by lia.
  pose proof (Z.div_mod total (Z.of_nat k) ltac:(lia)).
  pose proof (Z.mod_pos_bound total (Z.of_nat k) ltac:(lia)). lia.
Qed.

Lemma DistributePositiveIntOrPercent_spec i v n base :
  0 < n →
  ∃ r s, resolvesTo v base r
    ∧ DistributePositiveIntOrPercent i v n base = FromInt s
    ∧ s = DistributeOverZones i r n
    ∧ evenShare i r n s.
Proof.
  intros Hn. destruct v as [m|p]; simpl.
  - exists m, (DistributeOverZones i m n).
    repeat split; try done; by apply DistributeOverZones_evenShare.
  - exists (ceil_div (p * base) 100), (DistributeOverZones i (ceil_div (p * base) 100) n).
    split; [by apply ceil_div_isCeil|].
    repeat split; try done; by apply DistributeOverZones_evenShare.
Qed.

(** ** What a pool contributes *)

Lemma take_drop_concat {A} (ls : list (list A)) j l :
  ls !! j = Some l →
  take (length l) (drop (sum_list (length <$> take j ls)) (concat ls)) = l.
Proof.
  revert j. induction ls as [|l0 ls IH]; intros [|j] Hj; simplify_eq/=.
  - apply take_app_length.
  - rewrite drop_app_add. eauto.
Qed.

Lemma zoneRows_deployments w e zones k rows :
  zoneRows w e zones k = Ok rows →
  rows.*1 = zoneDeployment w e <$> seq k (length zones).
Proof.
  revert k rows. induction zones as [|zone zones IH]; intros k rows; simpl.
  { by intros [= <-]. }
  intros (row & Hrow & (rows' & Hrows & [= <-])%bind_Ok)%bind_Ok.
  rewrite zoneStep_eq in Hrow. destruct (ZoneConfigs _ !! zone); simplify_eq/=.
  f_equal. eauto.
Qed.

Section pools.
Context `{Collaborators}.

Lemma poolDeployments_eq seed w w' j pool :
  generateMachineConfig seed w = (w', None) →
  Pools (worker w) !! j = Some pool →
  ∃ sd infra seg e,
    poolLookups w infra seg sd pool = Ok e
    ∧ poolDeployments w w' j pool
      = zoneDeployment w e <$> seq 0 (length (pool_Zones pool)).
Proof.
  intros (sd & infra & seg & blocks & _ & _ & _ & _ & Hblocks & _ & Hmds & _)
         %generateMachineConfig_Ok Hj.
  destruct (poolBlocks_lookup _ _ _ _ _ _ _ _ Hblocks Hj) as (e & rows & Hb & He & Hrows).
  exists sd, infra, seg, e. split; [done|].
  unfold poolDeployments, zoneOffset. rewrite Hmds. simpl.
  rewrite fmap_take, <- (poolBlocks_lengths _ _ _ _ _ _ Hblocks), <- fmap_take.
  rewrite <- fmap_drop, <- fmap_take, <- (zoneRows_length _ _ _ _ _ Hrows).
  rewrite (take_drop_concat blocks.*2 j rows) by (by rewrite list_lookup_fmap, Hb).
  rewrite (zoneRows_length _ _ _ _ _ Hrows). by eapply zoneRows_deployments.
Qed.

(** Claim C1: for a pool with at least one zone, the deployment of zone [i]
    has as minimum (maximum) the even share of the pool's minimum (maximum):
    the ceiling of total/zones for the first [total mod zones] zones and the
    floor for the others, and the shares of a pool add up to the pool's
    total.  The surge bound is the even share of the pool's surge value, a
    percentage being resolved against the pool's maximum; the unavailable
    bound is resolved against the pool's minimum. *)
Theorem deployment_bounds_even_split seed w w' j pool :
  generateMachineConfig seed w = (w', None) →
  Pools (worker w) !! j = Some pool →
  (1 ≤ length (pool_Zones pool))%nat →
  Z.of_nat (length (pool_Zones pool)) < 2 ^ 31 →
  let zones := Z.of_nat (length (pool_Zones pool)) in
  let mds := poolDeployments w w' j pool in
  length mds = length (pool_Zones pool)
  ∧ sumZ (md_Minimum <$> mds) = pool_Minimum pool
  ∧ sumZ (md_Maximum <$> mds) = pool_Maximum pool
  ∧ ∀ (i : nat) md, mds !! i = Some md →
      evenShare (Z.of_nat i) (pool_Minimum pool) zones (md_Minimum md)
      ∧ evenShare (Z.of_nat i) (pool_Maximum pool) zones (md_Maximum md)
      ∧ (∃ r s, resolvesTo (pool_MaxSurge pool) (pool_Maximum pool) r
                ∧ md_MaxSurge md = FromInt s
                ∧ evenShare (Z.of_nat i) r zones s)
      ∧ (∃ r u, resolvesTo (pool_MaxUnavailable pool) (pool_Minimum pool) r
                ∧ md_MaxUnavailable md = FromInt u
                ∧ evenShare (Z.of_nat i) r zones u).
Proof.
  intros Hgen Hj Hpos Hfit zones mds.
  destruct (poolDeployments_eq _ _ _ _ _ Hgen Hj) as (sd & infra & seg & e & He & Hmds).
  destruct (poolLookups_pool _ _ _ _ _ _ He) as (Hpool & _ & _ & _ & Hlen & _).
  rewrite int32_small in Hlen by lia.
  subst mds. rewrite Hmds.
  assert (Hshares : ∀ total,
    sumZ ((λ i : nat, DistributeOverZones (int32 (Z.of_nat i)) total zones)
            <$> seq 0 (length (pool_Zones pool))) = total).
  { intros total.
    etrans; [|apply (sum_shares total (length (pool_Zones pool))); lia].
    f_equal. apply list_fmap_ext. intros i k [-> Hk]%lookup_seq.
    rewrite int32_small by lia. done. }
  split; [by rewrite length_fmap, length_seq|].
  split; [|split].
  - rewrite <- list_fmap_compose. unfold compose, zoneDeployment. simpl.
    rewrite Hpool, Hlen. apply Hshares.
  - rewrite <- list_fmap_compose. unfold compose, zoneDeployment. simpl.
    rewrite Hpool, Hlen. apply Hshares.
  - intros i md Hmd. rewrite list_lookup_fmap in Hmd.
    destruct (seq 0 (length (pool_Zones pool)) !! i) as [k|] eqn:Hk; [|done].
    injection Hmd as <-. apply lookup_seq in Hk as [-> Hk]. simpl.
    rewrite Hpool, Hlen, int32_small by lia. fold zones.
    assert (0 < zones) by (unfold zones; lia).
    split; [by apply DistributeOverZones_evenShare|].
    split; [by apply DistributeOverZones_evenShare|].
    split.
    + destruct (DistributePositiveIntOrPercent_spec (Z.of_nat i) (pool_MaxSurge pool)
                  zones (pool_Maximum pool)) as (r & s & ? & ? & _ & ?); [done|].
      by exists r, s.
    + destruct (DistributePositiveIntOrPercent_spec (Z.of_nat i) (pool_MaxUnavailable pool)
                  zones (pool_Minimum pool)) as (r & s & ? & ? & _ & ?); [done|].
      by exists r, s.
Qed.

(** Claim C2: the deployment generated for zone [i] of a pool is named
    namespace-pool-z(i+1), its class name is that name followed by a dash and
    the pool's configuration hash, and its secret name is its class name. *)
Theorem deployment_names seed w w' j pool i zone :
  generateMachineConfig seed w = (w', None) →
  Pools (worker w) !! j = Some pool →
  pool_Zones pool !! i = Some zone →
  ∃ hash md mc,
    WorkerPoolHash pool (cluster w) = Ok hash
    ∧ generatedAt w w' j i md mc
    ∧ md_Name md
      = Namespace (worker w) +:+ "-" +:+ pool_Name pool +:+ "-z" +:+ pretty (Z.of_nat i + 1)
    ∧ md_ClassName md = md_Name md +:+ "-" +:+ hash
    ∧ md_SecretName md = md_ClassName md
    ∧ mc !! "name" = Some (VString (md_ClassName md)).
Proof.
  intros Hgen Hj Hi.
  destruct (generated_lookup _ _ _ _ _ _ _ Hgen Hj Hi)
    as (sd & infra & seg & e & zc & _ & _ & _ & He & _ & Hat).
  destruct (poolLookups_pool _ _ _ _ _ _ He) as (Hpool & _ & _ & _ & _ & Hhash & _).
  exists (env_workerPoolHash e), (zoneDeployment w e i), (zoneClass w e zc i).
  do 2 (split; [done|]). simpl. rewrite Hpool.
  do 3 (split; [done|]).
  unfold zoneClass. rewrite lookup_insert_ne by done. by rewrite lookup_insert_eq, Hpool.
Qed.

End pools.

Lemma deployment_bounds_even_split_witness :
  generateMachineConfig (H:=Demo.healthy) Demo.seed Demo.w1 = (Demo.w1', None)
  ∧ sumZ (md_Minimum <$> poolDeployments Demo.w1 Demo.w1' 0 Demo.worker1) = 3
  ∧ sumZ (md_Maximum <$> poolDeployments Demo.w1 Demo.w1' 0 Demo.worker1) = 6.
Proof.
  assert (Hgen : generateMachineConfig (H:=Demo.healthy) Demo.seed Demo.w1
                 = (Demo.w1', None)) by (vm_compute; reflexivity).
  split; [exact Hgen|].
  destruct (deployment_bounds_even_split (H:=Demo.healthy) Demo.seed Demo.w1 Demo.w1'
              0%nat Demo.worker1 Hgen) as (_ & Hmin & Hmax & _).
  - reflexivity.
  - simpl. lia.
  - simpl. lia.
  - split; [exact Hmin | exact Hmax].
Defined.

Lemma deployment_names_witness :
  ∃ md mc, generatedAt Demo.w1 Demo.w1' 0 1 md mc
    ∧ md_Name md = "shoot--foo--bar-worker1-z2"
    ∧ md_ClassName md = "shoot--foo--bar-worker1-z2-1a2b3"
    ∧ md_SecretName md = md_ClassName md.
Proof.
  destruct (deployment_names (H:=Demo.healthy) Demo.seed Demo.w1 Demo.w1'
              0%nat Demo.worker1 1%nat "z2")
    as (hash & md & mc & Hhash & Hat & Hname & Hclass & Hsecret & _).
  - vm_compute; reflexivity.
  - reflexivity.
  - reflexivity.
  - exists md, mc. injection Hhash as <-.
    split; [exact Hat|]. split; [exact Hname|].
    split; [|exact Hsecret]. rewrite Hclass, Hname. reflexivity.
Defined.

(** ** Machine types *)

Lemma find_first {A} (f : A → bool) pre x post :
  Forall (λ y, f y = false) pre → f x = true → List.find f (pre ++ x :: post) = Some x.
Proof.
  intros Hpre Hx. induction Hpre as [|y pre Hy _ IH]; simpl.
  - by rewrite Hx.
  - by rewrite Hy.
Qed.

(** Claim C4: for a machine type found in the catalogue with CPU quantity 2
    and memory quantity 4Gi, [extractMachineValues] returns 2 CPUs, 4096 MB
    and the default disk of 20 GB when no storage is declared, and an
    [InvalidValue] error when the declared storage size is 5Gi, which is
    below the floor of 10 GB. *)
Theorem machine_values_scenarios w name pre mt post :
  CloudProfile_Spec_MachineTypes (cluster w) = pre ++ mt :: post →
  Forall (λ m, mt_Name m ≠ name) pre →
  mt_Name mt = name →
  mt_CPU mt = {| q_mantissa := 2; q_suffix := NoSuffix |} →
  mt_Memory mt = {| q_mantissa := 4; q_suffix := Gi |} →
  (mt_Storage mt = None → extractMachineValues w name = Ok (2, 4096, 20))
  ∧ (mt_Storage mt = Some {| StorageSize := {| q_mantissa := 5; q_suffix := Gi |} |} →
     ∃ e, extractMachineValues w name = Err e
          ∧ e = ErrInvalidStorageSizeGB name 5
          ∧ error_kind e = Some InvalidValue).
Proof.
  intros Hcat Hpre Hname Hcpu Hmem.
  assert (Hfind : List.find (λ m, bool_decide (mt_Name m = name))
                    (CloudProfile_Spec_MachineTypes (cluster w)) = Some mt).
  { rewrite Hcat. apply find_first.
    - eapply Forall_impl; [exact Hpre|]. intros m Hm. by apply bool_decide_eq_false.
    - by apply bool_decide_eq_true. }
  split; intros Hsto; unfold extractMachineValues; rewrite Hfind, Hcpu, Hmem, Hsto.
  - reflexivity.
  - eexists. split; [reflexivity|]. done.
Qed.

Lemma machine_values_scenarios_witness :
  extractMachineValues (Demo.delegate "eu-1" Demo.sshKey []) "std-02" = Ok (2, 4096, 20).
Proof.
  apply (machine_values_scenarios (Demo.delegate "eu-1" Demo.sshKey []) "std-02"
           [Demo.smallDisk] Demo.standard []).
  - reflexivity.
  - repeat constructor. simpl. discriminate.
  - reflexivity.
  - reflexivity.
  - reflexivity.
  - reflexivity.
Defined.

Example machine_values_small_disk :
  extractMachineValues (Demo.delegate "eu-1" Demo.sshKey []) "std-02-small"
  = Err (ErrInvalidStorageSizeGB "std-02-small" 5).
Proof. reflexivity. Qed.

(** ** Optional fields and the secret of a class *)

Ltac other_key := rewrite ?lookup_addOptional_ne by done.

Lemma zoneClass_optionals w e zc i :
  let mc := zoneClass w e zc i in
  optionalField mc "folder" (Folder (infra_VsphereConfig (env_infra e)))
  ∧ optionalField mc "guestId" (env_machineImageGuestID e)
  ∧ optionalField mc "hostSystem" (HostSystem zc)
  ∧ optionalField mc "resourcePool" (ResourcePool zc)
  ∧ optionalField mc "computeCluster" (ComputeCluster zc)
  ∧ optionalField mc "datastore" (Datastore zc)
  ∧ optionalField mc "datastoreCluster" (DatastoreCluster zc)
  ∧ optionalField mc "switchUuid" (SwitchUUID zc).
Proof.
  simpl. unfold zoneClass, optionalField, addOptionals.
  repeat split; intros Hval;
    rewrite !lookup_insert_ne by done; other_key;
    rewrite lookup_addOptional_eq; (case_decide; [|done]); try done;
    other_key; reflexivity.
Qed.

Lemma zoneClass_secret w e zc i :
  zoneClass w e zc i !! "secret"
  = Some (VMap (((λ v, VString (go_string v)) <$> env_secretData e)
                ∪ userDataSecret (env_pool e))).
Proof.
  unfold zoneClass. by rewrite lookup_insert_eq, mergeSecretData_union.
Qed.

Section classes.
Context `{Collaborators}.

(** Claim C6: in every generated class record each of the eight optional
    fields (folder, guestId, hostSystem, resourcePool, computeCluster,
    datastore, datastoreCluster, switchUuid) is present exactly when its
    source value is not the empty string, and then holds that value; for an
    empty value the key is absent. *)
Theorem optional_fields_iff_nonempty seed w w' j pool i zone :
  generateMachineConfig seed w = (w', None) →
  Pools (worker w) !! j = Some pool →
  pool_Zones pool !! i = Some zone →
  ∃ infra zc path guestID md mc,
    GetInfrastructureStatus (Namespace (worker w))
                            (InfrastructureProviderStatus (worker w)) = Ok infra
    ∧ ZoneConfigs (infra_VsphereConfig infra) !! zone = Some zc
    ∧ findMachineImage w (image_Name (pool_MachineImage pool))
                         (image_Version (pool_MachineImage pool)) = Ok (path, guestID)
    ∧ generatedAt w w' j i md mc
    ∧ optionalField mc "folder" (Folder (infra_VsphereConfig infra))
    ∧ optionalField mc "guestId" guestID
    ∧ optionalField mc "hostSystem" (HostSystem zc)
    ∧ optionalField mc "resourcePool" (ResourcePool zc)
    ∧ optionalField mc "computeCluster" (ComputeCluster zc)
    ∧ optionalField mc "datastore" (Datastore zc)
    ∧ optionalField mc "datastoreCluster" (DatastoreCluster zc)
    ∧ optionalField mc "switchUuid" (SwitchUUID zc).
Proof.
  intros Hgen Hj Hi.
  destruct (generated_lookup _ _ _ _ _ _ _ Hgen Hj Hi)
    as (sd & infra & seg & e & zc & _ & Hinfra & _ & He & Hzc & Hat).
  destruct (poolLookups_pool _ _ _ _ _ _ He) as (_ & Henv & _ & _ & _ & _ & Himg & _).
  exists infra, zc, (env_machineImagePath e), (env_machineImageGuestID e),
         (zoneDeployment w e i), (zoneClass w e zc i).
  do 4 (split; [done|]). rewrite <- Henv. apply zoneClass_optionals.
Qed.

(** An optional field is present if and only if its value is non-empty. *)
Lemma optionalField_iff (mc : MachineClass) key val :
  optionalField mc key val → (is_Some (mc !! key) ↔ val ≠ EmptyString).
Proof.
  intros [Hempty Hfull]. split.
  - intros [v Hv] ->. rewrite Hempty in Hv; done.
  - intros Hne. rewrite Hfull; eauto.
Qed.

(** Claim C7: the secret map of every generated class is the single-entry
    map from [cloudConfig] to the pool's user data, extended with the four
    credential entries (host, user name, password, insecure-SSL flag); its
    keys are [cloudConfig] and those four, and as none of the four is
    [cloudConfig] that entry still holds the pool's user data. *)
Theorem class_secret_map seed w w' j pool i zone :
  "cloudConfig" ∉ [vsphere_Host; vsphere_Username; vsphere_Password; vsphere_InsecureSSL] →
  generateMachineConfig seed w = (w', None) →
  Pools (worker w) !! j = Some pool →
  pool_Zones pool !! i = Some zone →
  ∃ secret credentials region md mc secretMap,
    GetSecretByReference seed (SecretRef (worker w)) = Ok secret
    ∧ ExtractCredentials secret = Ok credentials
    ∧ FindRegion (Shoot_Spec_Region (cluster w)) (cloudProfileConfig w) = Some region
    ∧ generatedAt w w' j i md mc
    ∧ mc !! "secret" = Some (VMap secretMap)
    ∧ secretMap
      = <[vsphere_InsecureSSL := VString (FormatBool (VsphereInsecureSSL region))]>
        (<[vsphere_Password := VString (Password (VsphereMCM credentials))]>
        (<[vsphere_Username := VString (Username (VsphereMCM credentials))]>
        (<[vsphere_Host := VString (VsphereHost region)]>
        {[ "cloudConfig" := VString (go_string (pool_UserData pool)) ]})))
    ∧ dom secretMap
      = {[ "cloudConfig"; vsphere_Host; vsphere_Username; vsphere_Password;
           vsphere_InsecureSSL ]}
    ∧ secretMap !! "cloudConfig" = Some (VString (go_string (pool_UserData pool))).
Proof.
  intros Hkeys Hgen Hj Hi.
  destruct (generated_lookup _ _ _ _ _ _ _ Hgen Hj Hi)
    as (sd & infra & seg & e & zc & Hsd & _ & _ & He & _ & Hat).
  destruct (poolLookups_pool _ _ _ _ _ _ He) as (Hpool & _ & _ & Hesd & _).
  unfold generateMachineClassSecretData in Hsd.
  apply bind_Ok in Hsd as (secret & Hsecret & Hsd).
  apply bind_Ok in Hsd as (credentials & Hcred & Hsd).
  destruct (FindRegion _ _) as [region|] eqn:Hregion; [|done].
  injection Hsd as <-.
  exists secret, credentials, region, (zoneDeployment w e i), (zoneClass w e zc i).
  eexists. do 4 (split; [done|]).
  split; [apply zoneClass_secret|].
  rewrite Hesd, Hpool, !fmap_insert, fmap_empty, !go_string_bytes.
  rewrite <- !insert_union_l, (left_id_L ∅ (∪)). unfold userDataSecret.
  split; [done|]. split.
  - rewrite !dom_insert_L, dom_singleton_L. apply set_eq. intros k.
    rewrite !elem_of_union, !elem_of_singleton. tauto.
  - rewrite !lookup_insert_ne, lookup_singleton_eq; [done|intros Heq; apply Hkeys; rewrite <- Heq; set_solver..].
Qed.

End classes.

Lemma optional_fields_iff_nonempty_witness :
  ∃ md mc, generatedAt Demo.w1 Demo.w1' 0 2 md mc
    ∧ mc !! "folder" = Some (VString "gardener")
    ∧ mc !! "hostSystem" = None.
Proof.
  destruct (optional_fields_iff_nonempty (H:=Demo.healthy) Demo.seed Demo.w1 Demo.w1'
              0%nat Demo.worker1 2%nat "z3")
    as (infra & zc & path & guest & md & mc & Hinfra & Hzc & _ & Hat
        & [_ Hfolder] & _ & [Hhost _] & _).
  - vm_compute; reflexivity.
  - reflexivity.
  - reflexivity.
  - exists md, mc. injection Hinfra as <-. injection Hzc as <-.
    split; [exact Hat|]. split.
    + apply Hfolder. discriminate.
    + apply Hhost. reflexivity.
Defined.

Lemma class_secret_map_witness :
  ∃ md mc secretMap, generatedAt Demo.w1 Demo.w1' 0 0 md mc
    ∧ mc !! "secret" = Some (VMap secretMap)
    ∧ secretMap !! "cloudConfig" = Some (VString "#cloud-config").
Proof.
  destruct (class_secret_map (H:=Demo.healthy) Demo.seed Demo.w1 Demo.w1'
              0%nat Demo.worker1 0%nat "z1")
    as (secret & credentials & region & md & mc & secretMap & _ & _ & _ & Hat
        & Hsecret & _ & _ & Hcloud).
  - apply (bool_decide_unpack _). vm_compute. exact I.
  - vm_compute; reflexivity.
  - reflexivity.
  - reflexivity.
  - exists md, mc, secretMap. split; [exact Hat|]. split; [exact Hsecret|]. exact Hcloud.
Defined.

(** ** Failures *)

Section failures.
Context `{Collaborators}.

Lemma generateMachineConfig_cases seed w :
  (∃ w', generateMachineConfig seed w = (w', None))
  ∨ (∃ e, generate seed w = Err e ∧ generateMachineConfig seed w = (w, Some e)).
Proof.
  unfold generateMachineConfig.
  destruct (generate seed w) as [[[mds mcs] images]|e]; eauto.
Qed.

Lemma secretData_withSpec seed w status ssh pools :
  generateMachineClassSecretData seed (withSpec w status ssh pools)
  = generateMachineClassSecretData seed w.
Proof. done. Qed.

Lemma withPools_id w : withPools w (Pools (worker w)) = w.
Proof. by destruct w as [[] ? ? ? ? ?]. Qed.

Lemma poolBlocks_Err_zone w infra seg sd pools e :
  (∀ pool, pool ∈ pools → ∃ env, poolLookups w infra seg sd pool = Ok env) →
  poolBlocks w infra seg sd pools = Err e →
  ∃ pool zone, pool ∈ pools ∧ zone ∈ pool_Zones pool
    ∧ e = ErrZoneConfigNotFound zone
    ∧ ZoneConfigs (infra_VsphereConfig infra) !! zone = None.
Proof.
  induction pools as [|p pools IH]; intros Hok; simpl; [done|].
  destruct (Hok p) as [env Henv]; [set_solver|]. rewrite Henv. simpl.
  destruct (poolLookups_pool _ _ _ _ _ _ Henv) as (_ & Hinfra & _).
  destruct (zoneRows w env (pool_Zones p) 0) as [rows|e'] eqn:Hrows; simpl.
  - intros [Hb|(blocks & _ & ?)]%bind_Err; [|done].
    destruct IH as (pool & zone & ? & ? & ? & ?); [set_solver|done|].
    exists pool, zone. set_solver.
  - intros [= <-]. apply zoneRows_Err in Hrows as (zone & ? & ? & Hzc).
    rewrite Hinfra in Hzc. exists p, zone. set_solver.
Qed.

End failures.

(** Claims C3, C8 and C10 fail as first stated: an earlier step of the
    generation can fail first and its error is the one returned. *)

(** Counterexample to claim C8 as stated: with an empty SSH key and a secret
    that cannot be read, the error is the one of the secret look-up, of kind
    [UpstreamFailure]. *)
Lemma missing_ssh_key_masked :
  SSHPublicKey (worker Demo.wNoKey) = []
  ∧ generateMachineConfig (H:=Demo.healthy) Demo.seedWithoutSecret Demo.wNoKey
    = (Demo.wNoKey, Some (ErrCollaborator UpstreamFailure "secret not found"))
  ∧ error_kind (ErrCollaborator UpstreamFailure "secret not found")
    ≠ Some MissingConfiguration.
Proof. split; [reflexivity|]. split; [vm_compute; reflexivity|discriminate]. Qed.

(** Counterexample to claim C10 as stated: with an unknown region and a
    secret that cannot be read, the error is the one of the secret look-up. *)
Lemma unknown_region_masked :
  FindRegion (Collaborators:=Demo.healthy) (Shoot_Spec_Region (cluster Demo.wMars))
             (cloudProfileConfig Demo.wMars) = None
  ∧ generateMachineConfig (H:=Demo.healthy) Demo.seedWithoutSecret Demo.wMars
    = (Demo.wMars, Some (ErrCollaborator UpstreamFailure "secret not found"))
  ∧ ErrCollaborator UpstreamFailure "secret not found" ≠ ErrRegionNotFound "mars".
Proof. split; [reflexivity|]. split; [vm_compute; reflexivity|discriminate]. Qed.

(** Counterexample to claim C3 as stated: with a zone without configuration
    and an empty SSH key, the error is the one of the missing key, of kind
    [MissingConfiguration]. *)
Lemma missing_zone_masked :
  Demo.worker2 ∈ Pools (worker Demo.wBadZoneNoKey)
  ∧ "z9" ∈ pool_Zones Demo.worker2
  ∧ ZoneConfigs (infra_VsphereConfig Demo.infra) !! "z9" = None
  ∧ generateMachineConfig (H:=Demo.healthy) Demo.seed Demo.wBadZoneNoKey
    = (Demo.wBadZoneNoKey, Some ErrMissingSSHPublicKey)
  ∧ error_kind ErrMissingSSHPublicKey ≠ Some NotFound.
Proof.
  split; [apply (list_elem_of_lookup_2 _ 1%nat); reflexivity|].
  split; [apply (list_elem_of_lookup_2 _ 1%nat); reflexivity|].
  split; [reflexivity|]. split; [vm_compute; reflexivity|discriminate].
Qed.

Example missing_zone_error :
  generateMachineConfig (H:=Demo.healthy) Demo.seed Demo.wBadZone
  = (Demo.wBadZone, Some (ErrZoneConfigNotFound "z9")).
Proof. vm_compute. reflexivity. Qed.

(** ** Names are told apart *)

Lemma chars_app s1 s2 : chars (s1 +:+ s2) = chars s1 ++ chars s2.
Proof. induction s1 as [|c s1 IH]; simpl; [done|]. by rewrite IH. Qed.

Lemma chars_inj s1 s2 : chars s1 = chars s2 → s1 = s2.
Proof.
  intros Heq. rewrite <- (String.string_of_list_ascii_of_string s1),
    <- (String.string_of_list_ascii_of_string s2). by rewrite Heq.
Qed.

Lemma chars_length s : length (chars s) = String.length s.
Proof. induction s as [|c s IH]; simpl; [done|]. by rewrite IH. Qed.

(** A marker that occurs in neither tail fixes where the tails start. *)
Lemma marker_split {A} (m : A) (a b d1 d2 : list A) :
  m ∉ d1 → m ∉ d2 → a ++ m :: d1 = b ++ m :: d2 → a = b ∧ d1 = d2.
Proof.
  revert b. induction a as [|x a IH]; intros [|y b] H1 H2 Heq; simplify_eq/=.
  - done.
  - destruct H1. apply elem_of_app. right. left.
  - destruct H2. apply elem_of_app. right. left.
  - destruct (IH b) as [-> ->]; done.
Qed.

Lemma pretty_N_go_no_z x s : "z"%char ∉ chars s → "z"%char ∉ chars (pretty_N_go x s).
Proof.
  revert s. induction (N.lt_wf_0 x) as [x _ IH]; intros s Hs.
  assert (x = 0 ∨ 0 < x)%N as [->|?] by lia.
  - by rewrite pretty_N_go_0.
  - rewrite pretty_N_go_step by done. apply IH.
    { by apply N.div_lt. }
    simpl. apply not_elem_of_cons. split; [|done].
    unfold pretty_N_char. by repeat case_match.
Qed.

Lemma fmt_d_no_z n : "z"%char ∉ chars (fmt_d n).
Proof.
  assert (HN : ∀ x : N, "z"%char ∉ chars (pretty x)).
  { intros x. unfold pretty, pretty_N. case_decide.
    - by apply (bool_decide_unpack _).
    - apply pretty_N_go_no_z. apply not_elem_of_nil. }
  unfold fmt_d, pretty, pretty_Z. destruct n as [|p|p].
  - by apply (bool_decide_unpack _).
  - apply HN.
  - rewrite chars_app. simpl. apply not_elem_of_cons. split; [done|]. apply HN.
Qed.

Lemma className_inj w p1 p2 h1 h2 (i1 i2 : nat) :
  String.length h1 = String.length h2 →
  className w p1 h1 i1 = className w p2 h2 i2 →
  pool_Name p1 = pool_Name p2 ∧ i1 = i2.
Proof.
  intros Hlen Heq. unfold className, deploymentName in Heq.
  apply (f_equal chars) in Heq. rewrite !chars_app in Heq.
  rewrite !(app_assoc _ (chars "-") (chars _)) in Heq.
  apply app_inj_2 in Heq as [Heq _]; [|by rewrite !chars_length].
  apply app_inj_tail in Heq as [Heq _].
  do 2 apply app_inv_head in Heq. simpl in Heq.
  rewrite !(cons_middle "-"%char), !app_assoc in Heq.
  apply marker_split in Heq as [Hname Hnum]; [|apply fmt_d_no_z..].
  apply app_inj_tail in Hname as [Hname _].
  apply chars_inj in Hname. apply chars_inj, (inj pretty) in Hnum.
  split; [done|lia].
Qed.

(** ** Counting what was generated *)

Lemma concat_length {A} (ls : list (list A)) :
  length (concat ls) = sum_list (length <$> ls).
Proof. induction ls as [|l ls IH]; simpl; [done|]. by rewrite length_app, IH. Qed.

Lemma concat_lookup_inv {A} (ls : list (list A)) p x :
  concat ls !! p = Some x →
  ∃ j i l, ls !! j = Some l ∧ l !! i = Some x
           ∧ p = (sum_list (length <$> take j ls) + i)%nat.
Proof.
  revert p. induction ls as [|l0 ls IH]; intros p; simpl; [done|].
  intros [Hp|[Hge Hp]]%lookup_app_Some.
  - exists 0%nat, p, l0. by repeat split.
  - destruct (IH _ Hp) as (j & i & l & Hj & Hi & Heq).
    exists (S j), i, l. split; [done|]. split; [done|].
    change (p = (length l0 + sum_list (length <$> take j ls) + i)%nat). lia.
Qed.

Section counting.
Context `{Collaborators}.

Lemma poolBlocks_lookup_inv w infra seg sd pools blocks j e rows :
  poolBlocks w infra seg sd pools = Ok blocks → blocks !! j = Some (e, rows) →
  ∃ pool, pools !! j = Some pool
    ∧ poolLookups w infra seg sd pool = Ok e
    ∧ zoneRows w e (pool_Zones pool) 0 = Ok rows.
Proof.
  intros Hblocks Hb.
  assert (Hlen : length blocks = length pools).
  { pose proof (f_equal length (poolBlocks_lengths _ _ _ _ _ _ Hblocks)) as Hl.
    by rewrite !length_fmap in Hl. }
  destruct (lookup_lt_is_Some_2 pools j) as [pool Hpool].
  { rewrite <- Hlen. by eapply lookup_lt_Some. }
  destruct (poolBlocks_lookup _ _ _ _ _ _ _ _ Hblocks Hpool) as (e' & rows' & Hb' & ? & ?).
  exists pool. by simplify_eq.
Qed.

(** Claim C9, amended: after a successful generation there are as many
    deployments, and as many classes, as there are (pool, zone) pairs; the
    class names are pairwise distinct when the pool names are pairwise
    distinct and the configuration hashes of the pools have one common
    length. *)
Theorem generated_counts_and_names seed w w' :
  generateMachineConfig seed w = (w', None) →
  length (slice_list (machineDeployments w')) = zoneCount (Pools (worker w))
  ∧ length (slice_list (machineClasses w')) = zoneCount (Pools (worker w))
  ∧ (NoDup (pool_Name <$> Pools (worker w)) →
     (∀ p q hp hq, p ∈ Pools (worker w) → q ∈ Pools (worker w) →
        WorkerPoolHash p (cluster w) = Ok hp → WorkerPoolHash q (cluster w) = Ok hq →
        String.length hp = String.length hq) →
     NoDup (classNames (machineClasses w'))).
Proof.
  intros (sd & infra & seg & blocks & _ & _ & _ & _ & Hblocks & _ & Hmds & Hmcs)
         %generateMachineConfig_Ok.
  rewrite Hmds, Hmcs, slice_list_extend. simpl. rewrite !length_fmap, concat_length.
  unfold zoneCount. rewrite (poolBlocks_lengths _ _ _ _ _ _ Hblocks).
  do 2 (split; [done|]).
  intros Hnames Hhash. unfold classNames. rewrite slice_list_extend. simpl.
  apply NoDup_alt. intros p1 p2 name Hp1 Hp2.
  rewrite !list_lookup_fmap in Hp1, Hp2.
  destruct (concat blocks.*2 !! p1) as [[md1 mc1]|] eqn:Hc1; [|done].
  destruct (concat blocks.*2 !! p2) as [[md2 mc2]|] eqn:Hc2; [|done].
  simpl in Hp1, Hp2.
  apply concat_lookup_inv in Hc1 as (j1 & i1 & rows1 & Hj1 & Hi1 & ->).
  apply concat_lookup_inv in Hc2 as (j2 & i2 & rows2 & Hj2 & Hi2 & ->).
  rewrite list_lookup_fmap in Hj1, Hj2.
  destruct (blocks !! j1) as [[e1 rows1']|] eqn:Hb1; [|done].
  destruct (blocks !! j2) as [[e2 rows2']|] eqn:Hb2; [|done].
  simpl in Hj1, Hj2. injection Hj1 as ->. injection Hj2 as ->.
  destruct (poolBlocks_lookup_inv _ _ _ _ _ _ _ _ _ Hblocks Hb1)
    as (pool1 & Hpool1 & He1 & Hrows1).
  destruct (poolBlocks_lookup_inv _ _ _ _ _ _ _ _ _ Hblocks Hb2)
    as (pool2 & Hpool2 & He2 & Hrows2).
  destruct (lookup_lt_is_Some_2 (pool_Zones pool1) i1) as [zone1 Hz1].
  { rewrite <- (zoneRows_length _ _ _ _ _ Hrows1). by eapply lookup_lt_Some. }
  destruct (lookup_lt_is_Some_2 (pool_Zones pool2) i2) as [zone2 Hz2].
  { rewrite <- (zoneRows_length _ _ _ _ _ Hrows2). by eapply lookup_lt_Some. }
  destruct (zoneRows_lookup _ _ _ _ _ _ _ Hrows1 Hz1) as (row1 & Hrow1 & Hstep1).
  destruct (zoneRows_lookup _ _ _ _ _ _ _ Hrows2 Hz2) as (row2 & Hrow2 & Hstep2).
  rewrite zoneStep_eq in Hstep1, Hstep2.
  destruct (ZoneConfigs _ !! zone1) as [zc1|]; [|done].
  destruct (ZoneConfigs _ !! zone2) as [zc2|]; [|done].
  simpl in Hstep1, Hstep2.
  assert (mc1 = zoneClass w e1 zc1 i1) as -> by congruence.
  assert (mc2 = zoneClass w e2 zc2 i2) as -> by congruence.
  unfold zoneClass in Hp1, Hp2.
  rewrite lookup_insert_ne, lookup_insert_eq in Hp1 by done.
  rewrite lookup_insert_ne, lookup_insert_eq in Hp2 by done.
  destruct (poolLookups_pool _ _ _ _ _ _ He1) as (Hpl1 & _ & _ & _ & _ & Hh1 & _).
  destruct (poolLookups_pool _ _ _ _ _ _ He2) as (Hpl2 & _ & _ & _ & _ & Hh2 & _).
  rewrite Hpl1 in Hp1. rewrite Hpl2 in Hp2.
  assert (Hcls : className w pool1 (env_workerPoolHash e1) i1
                 = className w pool2 (env_workerPoolHash e2) i2) by congruence.
  apply className_inj in Hcls as [Hname ->].
  2:{ eapply (Hhash pool1 pool2); [by eapply list_elem_of_lookup_2..|done|done]. }
  assert (j1 = j2) as ->; [|done].
  eapply NoDup_lookup; [exact Hnames|..].
  - by rewrite list_lookup_fmap, Hpool1.
  - by rewrite list_lookup_fmap, Hpool2, Hname.
Qed.

End counting.

(** Counterexample to claim C9 as stated: a pool listed twice yields the
    same class name twice. *)
Lemma class_names_repeat :
  generateMachineConfig (H:=Demo.healthy) Demo.seed Demo.wTwice = (Demo.wTwice', None)
  ∧ classNames (machineClasses Demo.wTwice') !! 0%nat
    = Some (Some (VString "shoot--foo--bar-worker1-z1-1a2b3"))
  ∧ classNames (machineClasses Demo.wTwice') !! 3%nat
    = Some (Some (VString "shoot--foo--bar-worker1-z1-1a2b3"))
  ∧ ¬ NoDup (classNames (machineClasses Demo.wTwice')).
Proof.
  assert (H0 : classNames (machineClasses Demo.wTwice') !! 0%nat
               = Some (Some (VString "shoot--foo--bar-worker1-z1-1a2b3")))
    by (vm_compute; reflexivity).
  assert (H3 : classNames (machineClasses Demo.wTwice') !! 3%nat
               = Some (Some (VString "shoot--foo--bar-worker1-z1-1a2b3")))
    by (vm_compute; reflexivity).
  split; [vm_compute; reflexivity|]. do 2 (split; [done|]).
  intros Hnodup. by pose proof (NoDup_lookup _ _ _ _ Hnodup H0 H3).
Qed.

Lemma generated_counts_and_names_witness :
  length (slice_list (machineDeployments Demo.w1')) = 3%nat
  ∧ length (slice_list (machineClasses Demo.w1')) = 3%nat
  ∧ NoDup (classNames (machineClasses Demo.w1')).
Proof.
  destruct (generated_counts_and_names (H:=Demo.healthy) Demo.seed Demo.w1 Demo.w1')
    as (Hmds & Hmcs & Hnames).
  - vm_compute; reflexivity.
  - split; [exact Hmds|]. split; [exact Hmcs|]. apply Hnames.
    + simpl. apply NoDup_singleton.
    + intros p q hp hq _ _ Hp Hq. injection Hp as <-. injection Hq as <-. reflexivity.
Defined.

(** ** The cache *)

Section cache.
Context `{Collaborators}.

(** Once generation has succeeded the deployments are served from the
    delegate, whatever the seed answers by then. *)
Lemma GenerateMachineDeployments_cached seed w w' seed2 :
  generateMachineConfig seed w = (w', None) →
  GenerateMachineDeployments seed2 w' = (w', (machineDeployments w', None)).
Proof.
  intros (? & ? & ? & blocks & _ & _ & _ & _ & _ & _ & Hmds & _)%generateMachineConfig_Ok.
  unfold GenerateMachineDeployments. by rewrite Hmds.
Qed.

(** With at least one (pool, zone) pair the classes are served from the
    delegate as well. *)
Lemma DeployMachineClasses_cached seed w w' seed2 :
  generateMachineConfig seed w = (w', None) →
  (0 < zoneCount (Pools (worker w)))%nat →
  DeployMachineClasses seed2 w'
  = (w', Apply seed2 machineclassChartPath (Namespace (worker w')) "machineclass"
               (machineClasses w')).
Proof.
  intros (? & ? & ? & blocks & _ & _ & _ & _ & Hblocks & _ & _ & Hmcs)%generateMachineConfig_Ok
         Hpos.
  unfold DeployMachineClasses. rewrite Hmcs.
  destruct ((concat blocks.*2).*2) as [|mc mcs] eqn:Hrows; [|done].
  apply (f_equal length) in Hrows. rewrite length_fmap, concat_length in Hrows.
  rewrite (poolBlocks_lengths _ _ _ _ _ _ Hblocks) in Hrows.
  unfold zoneCount in Hpos. simpl in Hrows. lia.
Qed.

End cache.

(** Claim C5 fails on a worker without (pool, zone) pairs: generation
    succeeds and leaves the class slice nil, so [DeployMachineClasses] does
    not find a cached result and generates again; with a seed whose secret
    is gone by then, the second call fails where [GenerateMachineDeployments]
    still answers from the delegate. *)
Lemma deploy_recomputes_without_classes :
  generateMachineConfig (H:=Demo.healthy) Demo.seed Demo.wEmpty = (Demo.wEmpty', None)
  ∧ machineDeployments Demo.wEmpty' = Some []
  ∧ machineClasses Demo.wEmpty' = None
  ∧ GenerateMachineDeployments (H:=Demo.healthy) Demo.seedWithoutSecret Demo.wEmpty'
    = (Demo.wEmpty', (Some [], None))
  ∧ DeployMachineClasses (H:=Demo.healthy) Demo.seedWithoutSecret Demo.wEmpty'
    = (Demo.wEmpty', Some (ErrCollaborator UpstreamFailure "secret not found")).
Proof. repeat split; vm_compute; reflexivity. Qed.

(** * Further properties of the code *)

(** ** The machine type catalogue *)

Lemma firstNamed_find name catalogue mt :
  firstNamed name catalogue mt →
  List.find (λ m, bool_decide (mt_Name m = name)) catalogue = Some mt.
Proof.
  intros (pre & post & -> & Hpre & Hname). apply find_first.
  - eapply Forall_impl; [exact Hpre|]. intros m Hm. by apply bool_decide_eq_false.
  - by apply bool_decide_eq_true.
Qed.

Lemma find_none_names name (catalogue : list MachineType) :
  List.find (λ m, bool_decide (mt_Name m = name)) catalogue = None
  ↔ Forall (λ m, mt_Name m ≠ name) catalogue.
Proof.
  induction catalogue as [|m ms IH]; simpl.
  - split; [constructor|done].
  - case_bool_decide as Hm.
    + split; [done|]. intros Hall. by inversion Hall.
    + rewrite IH. split; [by constructor|]. intros Hall. by inversion Hall.
Qed.

Lemma AsInt64_range q n : AsInt64 q = Some n → - 2 ^ 63 ≤ n < 2 ^ 63.
Proof.
  unfold AsInt64, heldAsInt64.
  destruct (bool_decide (Z.abs _ < _)); simpl; [|done].
  case_bool_decide; [|done]. by intros [= <-].
Qed.

Lemma quot_upper m k q : 0 < k → 0 < q → m < k * q → Z.quot m k < q.
Proof.
  intros Hk Hq Hm. destruct (Z.le_gt_cases 0 m) as [Hpos|Hneg].
  - by apply Z.quot_lt_upper_bound.
  - replace m with (- (- m)) by lia. rewrite Z.quot_opp_l by lia.
    pose proof (Z.quot_pos (- m) k). lia.
Qed.

(** The machine-type-not-found error is returned exactly when no entry of
    the catalogue has the requested name, the empty catalogue included. *)
Theorem machine_type_not_found_iff w name :
  extractMachineValues w name = Err (ErrMachineTypeNotFound name)
  ↔ Forall (λ m, mt_Name m ≠ name) (CloudProfile_Spec_MachineTypes (cluster w)).
Proof.
  rewrite <- find_none_names. unfold extractMachineValues.
  destruct (List.find _ _) as [mt|]; [|done].
  split; [|done]. repeat (case_bool_decide || case_match); done.
Qed.

(** Values that are returned are usable: at least one CPU, at least one MB
    of memory, a system disk of at least 10 GB, each within the range the
    64-bit source quantity allows. *)
Theorem machine_values_bounds w name numCpus memoryInMB systemDiskSizeInGB :
  extractMachineValues w name = Ok (numCpus, memoryInMB, systemDiskSizeInGB) →
  1 ≤ numCpus < 2 ^ 63
  ∧ 1 ≤ memoryInMB < 2 ^ 43
  ∧ 10 ≤ systemDiskSizeInGB < 2 ^ 33.
Proof.
  unfold extractMachineValues.
  destruct (List.find _ _) as [mt|]; [|done].
  destruct (AsInt64 (mt_CPU mt)) as [c|] eqn:Hc; [|by case_bool_decide].
  apply AsInt64_range in Hc.
  case_bool_decide as Hcpu; [done|].
  destruct (AsInt64 (mt_Memory mt)) as [m|] eqn:Hm; [|by case_bool_decide].
  apply AsInt64_range in Hm.
  assert (Z.quot m (1024 * 1024) < 2 ^ 43).
  { apply quot_upper; lia. }
  case_bool_decide as Hmem; [done|].
  destruct (mt_Storage mt) as [storage|].
  - destruct (AsInt64 (StorageSize storage)) as [n|] eqn:Hn; [|done].
    apply AsInt64_range in Hn.
    assert (Z.quot n (1024 * 1024 * 1024) < 2 ^ 33).
    { apply quot_upper; lia. }
    case_bool_decide as Hdisk; [done|]. intros [= <- <- <-]. lia.
  - intros [= <- <- <-]. lia.
Qed.

Lemma machine_values_bounds_witness :
  1 ≤ 2 < 2 ^ 63 ∧ 1 ≤ 4096 < 2 ^ 43 ∧ 10 ≤ 20 < 2 ^ 33.
Proof.
  apply (machine_values_bounds (Demo.delegate "eu-1" Demo.sshKey []) "std-02" 2 4096 20).
  reflexivity.
Defined.

(** Only the first entry with the requested name counts: entries before it
    with other names and all entries after it, later entries of the same name
    included, do not change what is returned. *)
Theorem machine_values_first_match w1 w2 name mt :
  firstNamed name (CloudProfile_Spec_MachineTypes (cluster w1)) mt →
  firstNamed name (CloudProfile_Spec_MachineTypes (cluster w2)) mt →
  extractMachineValues w1 name = extractMachineValues w2 name.
Proof.
  intros H1%firstNamed_find H2%firstNamed_find.
  unfold extractMachineValues. by rewrite H1, H2.
Qed.

Lemma machine_values_first_match_witness :
  extractMachineValues Demo.wCatalogue "std-02"
  = extractMachineValues (Demo.delegate "eu-1" Demo.sshKey []) "std-02".
Proof.
  apply (machine_values_first_match _ _ "std-02" Demo.standard).
  - exists [], [Demo.shadowed; Demo.withDisk; Demo.tinyMemory].
    split; [reflexivity|]. split; [constructor|reflexivity].
  - exists [Demo.smallDisk], [].
    split; [reflexivity|]. split; [|reflexivity].
    repeat constructor. simpl. discriminate.
Defined.

(** The system disk of a type that declares storage, its CPU and memory
    being valid: a storage size for which [AsInt64] has no value, as for a
    quantity the parser holds as a decimal, gives the storage size error with
    the quantity; a storage size of [n] bytes yields [n / 2^30] GB (truncated)
    when [n] is at least 10 * 2^30, and the storage size error with the
    truncated number of GB below that. *)
Theorem declared_disk_floor w name mt storage c m :
  firstNamed name (CloudProfile_Spec_MachineTypes (cluster w)) mt →
  AsInt64 (mt_CPU mt) = Some c → 0 < c →
  AsInt64 (mt_Memory mt) = Some m → 1024 * 1024 ≤ m →
  mt_Storage mt = Some storage →
  (AsInt64 (StorageSize storage) = None →
   extractMachineValues w name = Err (ErrInvalidStorageSize name (StorageSize storage)))
  ∧ (∀ n, AsInt64 (StorageSize storage) = Some n →
       (10 * 2 ^ 30 ≤ n →
        extractMachineValues w name = Ok (c, Z.quot m (2 ^ 20), Z.quot n (2 ^ 30)))
       ∧ (n < 10 * 2 ^ 30 →
          extractMachineValues w name
          = Err (ErrInvalidStorageSizeGB name (Z.quot n (2 ^ 30))))).
Proof.
  intros Hfind%firstNamed_find Hc Hcpos Hm Hmpos Hsto.
  unfold extractMachineValues. rewrite Hfind, Hc, Hm, Hsto.
  assert (0 < Z.quot m (1024 * 1024)).
  { apply Z.quot_str_pos. lia. }
  rewrite bool_decide_eq_false_2 by lia.
  rewrite bool_decide_eq_false_2 by lia.
  split; [by intros ->|]. intros n ->.
  change (1024 * 1024 * 1024) with (2 ^ 30). change (1024 * 1024) with (2 ^ 20).
  split; intros Hfloor.
  - rewrite bool_decide_eq_false_2; [done|].
    pose proof (Z.quot_le_lower_bound n (2 ^ 30) 10). lia.
  - rewrite bool_decide_eq_true_2; [done|]. apply quot_upper; lia.
Qed.

Lemma declared_disk_floor_witness :
  extractMachineValues Demo.wCatalogue "std-02-disk" = Ok (2, 4096, 50).
Proof.
  destruct (declared_disk_floor Demo.wCatalogue "std-02-disk" Demo.withDisk
              {| StorageSize := Demo.quantity 50 Gi |} 2 (4 * 2 ^ 30))
    as [_ Hsome].
  - exists [Demo.standard; Demo.shadowed], [Demo.tinyMemory].
    split; [reflexivity|]. split; [|reflexivity].
    repeat constructor; simpl; discriminate.
  - reflexivity.
  - lia.
  - reflexivity.
  - lia.
  - reflexivity.
  - destruct (Hsome (50 * 2 ^ 30)) as [Hok _]; [reflexivity|].
    rewrite Hok by lia. reflexivity.
Defined.

(** Quantities with too many digits for the parser's integer form have no
    64-bit value: a disk of 100000Gi and a memory of 100Ti are refused. *)
Example decimal_quantities_refused :
  AsInt64 (Demo.quantity 100000 Gi) = None
  ∧ AsInt64 (Demo.quantity 100 Ti) = None
  ∧ extractMachineValues Demo.wHuge "huge-disk"
    = Err (ErrInvalidStorageSize "huge-disk" (Demo.quantity 100000 Gi))
  ∧ extractMachineValues Demo.wHuge "huge-memory"
    = Err (ErrInvalidMemory "huge-memory" (Demo.quantity 2 NoSuffix)).
Proof. repeat split; reflexivity. Qed.

(** Quantities are checked in the order CPU, memory: a CPU quantity that has
    no 64-bit value or is not positive gives the CPU error whatever the memory
    and the storage are; with a valid CPU, a memory quantity that has no
    64-bit value or is below one MiB (so that the truncated number of MB is
    zero) gives the memory error, which carries the CPU quantity. *)
Theorem invalid_quantities w name mt :
  firstNamed name (CloudProfile_Spec_MachineTypes (cluster w)) mt →
  ((∀ c, AsInt64 (mt_CPU mt) = Some c → c ≤ 0) →
   extractMachineValues w name = Err (ErrInvalidCPU name (mt_CPU mt)))
  ∧ (∀ c, AsInt64 (mt_CPU mt) = Some c → 0 < c →
          (∀ m, AsInt64 (mt_Memory mt) = Some m → m < 1024 * 1024) →
          extractMachineValues w name = Err (ErrInvalidMemory name (mt_CPU mt))).
Proof.
  intros Hfind%firstNamed_find. unfold extractMachineValues. rewrite Hfind.
  split.
  - intros Hbad. destruct (AsInt64 (mt_CPU mt)) as [c|].
    + by rewrite bool_decide_eq_true_2 by eauto.
    + done.
  - intros c -> Hc Hbad. rewrite bool_decide_eq_false_2 by lia.
    destruct (AsInt64 (mt_Memory mt)) as [m|]; [|done].
    rewrite bool_decide_eq_true_2; [done|].
    specialize (Hbad m eq_refl).
    pose proof (quot_upper m (1024 * 1024) 1). lia.
Qed.

Lemma invalid_quantities_witness :
  extractMachineValues Demo.wCatalogue "tiny"
  = Err (ErrInvalidMemory "tiny" (Demo.quantity 1 NoSuffix)).
Proof.
  destruct (invalid_quantities Demo.wCatalogue "tiny" Demo.tinyMemory) as [_ Hmem].
  - exists [Demo.standard; Demo.shadowed; Demo.withDisk], [].
    split; [reflexivity|]. split; [|reflexivity].
    repeat constructor; simpl; discriminate.
  - apply (Hmem 1); [reflexivity|lia|].
    intros m Hm. injection Hm as <-. reflexivity.
Defined.

(** ** One zone iteration *)

(** A zone iteration fails in one way only, for a zone without zone
    configuration: the secret entry written by the map literal is still a map
    when it is read back, so the type assertion on it does not fail. *)
Theorem zone_iteration_outcomes w e zoneIndex zone :
  (∃ zoneConfig deployment class,
      ZoneConfigs (infra_VsphereConfig (env_infra e)) !! zone = Some zoneConfig
      ∧ zoneStep w e zoneIndex zone = Ok (deployment, class)
      ∧ class !! "name" = Some (VString (md_ClassName deployment)))
  ∨ (ZoneConfigs (infra_VsphereConfig (env_infra e)) !! zone = None
     ∧ zoneStep w e zoneIndex zone = Err (ErrZoneConfigNotFound zone)).
Proof.
  rewrite zoneStep_eq.
  destruct (ZoneConfigs _ !! zone) as [zc|]; [left|by right].
  exists zc, (zoneDeployment w e zoneIndex), (zoneClass w e zc zoneIndex).
  do 2 (split; [done|]). unfold zoneClass.
  by rewrite lookup_insert_ne, lookup_insert_eq.
Qed.

(** Writing the credential fields into a secret map is last-write-wins per
    key and does not depend on the order in which the fields are visited: a
    key of the credential data gets the credential value as a string, every
    other key keeps what the map held. *)
Theorem merged_secret_lookup (secretData : gmap string bytes)
    (secretMap : gmap string value) (k : string) :
  mergeSecretData secretData secretMap !! k
  = match secretData !! k with
    | Some v => Some (VString (go_string v))
    | None => secretMap !! k
    end.
Proof.
  rewrite mergeSecretData_union, lookup_union, lookup_fmap.
  destruct (secretData !! k); simpl; [|by rewrite (left_id_L None union)].
  by destruct (secretMap !! k).
Qed.

(** ** Class records *)

Lemma zoneClass_literal_key w e zc i k :
  k ≠ "secret" → k ≠ "name" → k ∉ optionalKeys →
  zoneClass w e zc i !! k = machineClassLiteral w e zc !! k.
Proof.
  intros Hs Hn Hopt. unfold zoneClass.
  rewrite !lookup_insert_ne by done. by apply lookup_addOptionals_other.
Qed.

Lemma zoneClass_mandatory w e zc i :
  let mc := zoneClass w e zc i in
  mc !! "region" = Some (VString (Region (infra_VsphereConfig (env_infra e))))
  ∧ mc !! "sshKeys" = Some (VStrings [go_string (SSHPublicKey (worker w))])
  ∧ mc !! "datacenter" = Some (VString (Datacenter zc))
  ∧ mc !! "network" = Some (VString (env_segment e))
  ∧ mc !! "templateVM" = Some (VString (env_machineImagePath e))
  ∧ mc !! "numCpus" = Some (VInt (env_numCpus e))
  ∧ mc !! "memory" = Some (VInt (env_memoryInMB e))
  ∧ mc !! "systemDisk" = Some (VMap {[ "size" := VInt (env_systenDiskSizeInGB e) ]})
  ∧ mc !! "tags"
    = Some (VStringMap (<["mcm.gardener.cloud/role" := "node"]>
                        {[ "mcm.gardener.cloud/cluster" := Namespace (worker w) ]})).
Proof.
  simpl. repeat split;
    (rewrite zoneClass_literal_key;
     [reflexivity|done|done|by apply (bool_decide_unpack _)]).
Qed.

Lemma zoneClass_keys w e zc i k :
  is_Some (zoneClass w e zc i !! k) → k ∈ mandatoryKeys ++ optionalKeys.
Proof.
  intros Hsome.
  destruct (decide (k ∈ mandatoryKeys ++ optionalKeys)) as [|Hk]; [done|exfalso].
  assert (Hne : ∀ k', k' ∈ mandatoryKeys ++ optionalKeys → k' ≠ k) by (by intros k' ? ->).
  rewrite zoneClass_literal_key in Hsome.
  - unfold machineClassLiteral in Hsome.
    rewrite !lookup_insert_ne, lookup_empty in Hsome;
      [by destruct Hsome|(apply Hne; by apply (bool_decide_unpack _))..].
  - intros ->. by apply Hk, (bool_decide_unpack _).
  - intros ->. by apply Hk, (bool_decide_unpack _).
  - intros Hopt. apply Hk, elem_of_app. by right.
Qed.

Lemma zoneClass_mandatory_keys w e zc i k :
  k ∈ mandatoryKeys → is_Some (zoneClass w e zc i !! k).
Proof.
  intros Hk. destruct (zoneClass_mandatory w e zc i)
    as (? & ? & ? & ? & ? & ? & ? & ? & ?).
  unfold mandatoryKeys in Hk.
  repeat (apply elem_of_cons in Hk as [->|Hk]; [eauto|]).
  - rewrite zoneClass_secret. eauto.
  - unfold zoneClass. rewrite lookup_insert_ne, lookup_insert_eq by done. eauto.
  - by apply elem_of_nil in Hk.
Qed.

(** ** Where the output comes from *)

Section origin.
Context `{Collaborators}.

(** The two output lists are the two projections of one list of rows, and
    every row stems from a zone of a pool. *)
Lemma generated_rows seed w w' :
  generateMachineConfig seed w = (w', None) →
  ∃ sd infra seg rows,
    preludeOk seed w sd infra seg
    ∧ slice_list (machineDeployments w') = rows.*1
    ∧ slice_list (machineClasses w') = rows.*2
    ∧ ∀ p row, rows !! p = Some row →
        ∃ j pool i zone e zc,
          Pools (worker w) !! j = Some pool
          ∧ pool_Zones pool !! i = Some zone
          ∧ p = (zoneOffset (Pools (worker w)) j + i)%nat
          ∧ poolLookups w infra seg sd pool = Ok e
          ∧ ZoneConfigs (infra_VsphereConfig infra) !! zone = Some zc
          ∧ row = (zoneDeployment w e i, zoneClass w e zc i).
Proof.
  intros (sd & infra & seg & blocks & Hsd & Hinfra & Hseg & Hssh & Hblocks & _ & Hmds & Hmcs)
         %generateMachineConfig_Ok.
  exists sd, infra, seg, (concat blocks.*2).
  split; [done|]. split; [by rewrite Hmds|].
  split; [by rewrite Hmcs, slice_list_extend|].
  intros p row (j & i & rows & Hj & Hi & ->)%concat_lookup_inv.
  rewrite list_lookup_fmap in Hj.
  destruct (blocks !! j) as [[e rows']|] eqn:Hb; [|done].
  injection Hj as ->.
  destruct (poolBlocks_lookup_inv _ _ _ _ _ _ _ _ _ Hblocks Hb) as (pool & Hpool & He & Hrows).
  destruct (lookup_lt_is_Some_2 (pool_Zones pool) i) as [zone Hz].
  { rewrite <- (zoneRows_length _ _ _ _ _ Hrows). by eapply lookup_lt_Some. }
  destruct (zoneRows_lookup _ _ _ _ _ _ _ Hrows Hz) as (row' & Hrow' & Hstep).
  rewrite zoneStep_eq in Hstep.
  destruct (poolLookups_pool _ _ _ _ _ _ He) as (_ & Hinf & _).
  rewrite Hinf in Hstep.
  destruct (ZoneConfigs _ !! zone) as [zc|] eqn:Hzc; [|done].
  exists j, pool, i, zone, e, zc. do 2 (split; [done|]).
  split.
  { unfold zoneOffset.
    by rewrite !fmap_take, <- (poolBlocks_lengths _ _ _ _ _ _ Hblocks). }
  do 2 (split; [done|]). simpl in Hstep. congruence.
Qed.

(** Every deployment of the output was generated for a zone of a pool of
    the worker: it carries that pool's labels, annotations and taints
    unchanged and the name built from the pool name and the zone's position;
    nothing else is in the list. *)
Theorem deployment_origin seed w w' p md :
  generateMachineConfig seed w = (w', None) →
  slice_list (machineDeployments w') !! p = Some md →
  ∃ j pool i zone,
    Pools (worker w) !! j = Some pool
    ∧ pool_Zones pool !! i = Some zone
    ∧ p = (zoneOffset (Pools (worker w)) j + i)%nat
    ∧ md_Name md = deploymentName w pool i
    ∧ md_Labels md = pool_Labels pool
    ∧ md_Annotations md = pool_Annotations pool
    ∧ md_Taints md = pool_Taints pool.
Proof.
  intros (sd & infra & seg & rows & _ & Hmds & _ & Hrows)%generated_rows Hp.
  rewrite Hmds, list_lookup_fmap in Hp.
  destruct (rows !! p) as [row|] eqn:Hrow; [|done]. injection Hp as <-.
  destruct (Hrows _ _ Hrow) as (j & pool & i & zone & e & zc & ? & ? & ? & He & _ & ->).
  destruct (poolLookups_pool _ _ _ _ _ _ He) as (Hpool & _).
  exists j, pool, i, zone. simpl. by rewrite Hpool.
Qed.

(** Deployments and classes go in pairs: the two lists have the same
    length, and at every index the class is the one the deployment refers to,
    its name being the deployment's class name and secret name. *)
Theorem deployments_and_classes_paired seed w w' :
  generateMachineConfig seed w = (w', None) →
  length (slice_list (machineDeployments w')) = length (slice_list (machineClasses w'))
  ∧ ∀ p md mc,
      slice_list (machineDeployments w') !! p = Some md →
      slice_list (machineClasses w') !! p = Some mc →
      mc !! "name" = Some (VString (md_ClassName md))
      ∧ md_SecretName md = md_ClassName md.
Proof.
  intros (sd & infra & seg & rows & _ & Hmds & Hmcs & Hrows)%generated_rows.
  rewrite Hmds, Hmcs, !length_fmap. split; [done|].
  intros p md mc Hmd Hmc.
  rewrite list_lookup_fmap in Hmd. rewrite list_lookup_fmap in Hmc.
  destruct (rows !! p) as [row|] eqn:Hrow; [|done].
  injection Hmd as <-. injection Hmc as <-.
  destruct (Hrows _ _ Hrow) as (j & pool & i & zone & e & zc & _ & _ & _ & _ & _ & ->).
  simpl. split; [|done]. unfold zoneClass.
  by rewrite lookup_insert_ne, lookup_insert_eq.
Qed.

(** Every class record of the output has each of the eleven mandatory keys
    and, besides them, only keys among the eight optional ones. *)
Theorem class_key_set seed w w' p mc :
  generateMachineConfig seed w = (w', None) →
  slice_list (machineClasses w') !! p = Some mc →
  (∀ k, k ∈ mandatoryKeys → is_Some (mc !! k))
  ∧ (∀ k, is_Some (mc !! k) → k ∈ mandatoryKeys ++ optionalKeys).
Proof.
  intros (sd & infra & seg & rows & _ & _ & Hmcs & Hrows)%generated_rows Hp.
  rewrite Hmcs, list_lookup_fmap in Hp.
  destruct (rows !! p) as [row|] eqn:Hrow; [|done]. injection Hp as <-.
  destruct (Hrows _ _ Hrow) as (j & pool & i & zone & e & zc & _ & _ & _ & _ & _ & ->).
  simpl. split; intros k.
  - apply zoneClass_mandatory_keys.
  - apply zoneClass_keys.
Qed.

(** The mandatory fields of the class generated for a zone: the region of
    the vSphere configuration, the SSH key as the only element of the key
    list, the zone's datacenter, the segment name as network, the path of the
    resolved image as template, the three machine values, and the two tags
    with the worker's namespace as cluster and the role node. *)
Theorem class_mandatory_fields seed w w' j pool i zone :
  generateMachineConfig seed w = (w', None) →
  Pools (worker w) !! j = Some pool →
  pool_Zones pool !! i = Some zone →
  ∃ infra seg zc path guestID numCpus memoryInMB diskGB md mc,
    GetInfrastructureStatus (Namespace (worker w))
                            (InfrastructureProviderStatus (worker w)) = Ok infra
    ∧ segmentName infra = Some seg
    ∧ ZoneConfigs (infra_VsphereConfig infra) !! zone = Some zc
    ∧ findMachineImage w (image_Name (pool_MachineImage pool))
                         (image_Version (pool_MachineImage pool)) = Ok (path, guestID)
    ∧ extractMachineValues w (pool_MachineType pool) = Ok (numCpus, memoryInMB, diskGB)
    ∧ generatedAt w w' j i md mc
    ∧ mc !! "region" = Some (VString (Region (infra_VsphereConfig infra)))
    ∧ mc !! "sshKeys" = Some (VStrings [go_string (SSHPublicKey (worker w))])
    ∧ mc !! "datacenter" = Some (VString (Datacenter zc))
    ∧ mc !! "network" = Some (VString seg)
    ∧ mc !! "templateVM" = Some (VString path)
    ∧ mc !! "numCpus" = Some (VInt numCpus)
    ∧ mc !! "memory" = Some (VInt memoryInMB)
    ∧ mc !! "systemDisk" = Some (VMap {[ "size" := VInt diskGB ]})
    ∧ mc !! "tags"
      = Some (VStringMap (<["mcm.gardener.cloud/role" := "node"]>
                          {[ "mcm.gardener.cloud/cluster" := Namespace (worker w) ]})).
Proof.
  intros Hgen Hj Hi.
  destruct (generated_lookup _ _ _ _ _ _ _ Hgen Hj Hi)
    as (sd & infra & seg & e & zc & _ & Hinfra & Hseg & He & Hzc & Hat).
  destruct (poolLookups_pool _ _ _ _ _ _ He)
    as (_ & Henv & Hs & _ & _ & _ & Himg & Hval).
  exists infra, seg, zc, (env_machineImagePath e), (env_machineImageGuestID e),
         (env_numCpus e), (env_memoryInMB e), (env_systenDiskSizeInGB e),
         (zoneDeployment w e i), (zoneClass w e zc i).
  do 6 (split; [done|]). rewrite <- Henv, <- Hs. apply zoneClass_mandatory.
Qed.

End origin.

Lemma deployment_origin_witness :
  ∃ md, slice_list (machineDeployments Demo.w1') !! 2%nat = Some md
        ∧ md_Name md = "shoot--foo--bar-worker1-z3"
        ∧ md_Labels md = ∅.
Proof.
  assert (Hmd : ∃ md, slice_list (machineDeployments Demo.w1') !! 2%nat = Some md)
    by (eexists; vm_compute; reflexivity).
  destruct Hmd as [md Hmd]. exists md. split; [exact Hmd|].
  destruct (deployment_origin (H:=Demo.healthy) Demo.seed Demo.w1 Demo.w1' 2%nat md)
    as (j & pool & i & zone & Hj & Hi & Hp & Hname & Hlabels & _).
  - vm_compute; reflexivity.
  - exact Hmd.
  - destruct j as [|[|j]]; [|discriminate..]. injection Hj as <-.
    change (zoneOffset (Pools (worker Demo.w1)) 0) with 0%nat in Hp.
    simpl in Hp. subst i. rewrite Hname, Hlabels. split; reflexivity.
Defined.

Lemma deployments_and_classes_paired_witness :
  length (slice_list (machineDeployments Demo.w1'))
  = length (slice_list (machineClasses Demo.w1')).
Proof.
  apply (deployments_and_classes_paired (H:=Demo.healthy) Demo.seed Demo.w1 Demo.w1').
  vm_compute; reflexivity.
Defined.

Lemma class_key_set_witness :
  ∃ mc : MachineClass,
    slice_list (machineClasses Demo.w1') !! 0%nat = Some mc
    ∧ is_Some (mc !! "network")
    ∧ mc !! "password" = None.
Proof.
  assert (Hmc : ∃ mc, slice_list (machineClasses Demo.w1') !! 0%nat = Some mc)
    by (eexists; vm_compute; reflexivity).
  destruct Hmc as [mc Hmc]. exists mc. split; [exact Hmc|].
  destruct (class_key_set (H:=Demo.healthy) Demo.seed Demo.w1 Demo.w1' 0%nat mc)
    as [Hmand Hkeys].
  - vm_compute; reflexivity.
  - exact Hmc.
  - split.
    + apply Hmand. by apply (bool_decide_unpack _).
    + destruct (mc !! "password") as [v|] eqn:Hpw; [|reflexivity].
      exfalso. assert (Hin : "password" ∈ mandatoryKeys ++ optionalKeys) by eauto.
      revert Hin. by apply (bool_decide_unpack _).
Defined.

Lemma class_mandatory_fields_witness :
  ∃ md mc, generatedAt Demo.w1 Demo.w1' 0 1 md mc
    ∧ mc !! "datacenter" = Some (VString "dc-2")
    ∧ mc !! "network" = Some (VString "segment-1")
    ∧ mc !! "numCpus" = Some (VInt 2).
Proof.
  destruct (class_mandatory_fields (H:=Demo.healthy) Demo.seed Demo.w1 Demo.w1'
              0%nat Demo.worker1 1%nat "z2")
    as (infra & seg & zc & path & guest & cpu & mem & disk & md & mc
        & Hinfra & Hseg & Hzc & _ & Hval & Hat & _ & _ & Hdc & Hnet & _ & Hcpu & _).
  - vm_compute; reflexivity.
  - reflexivity.
  - reflexivity.
  - exists md, mc. injection Hinfra as <-. injection Hseg as <-.
    injection Hzc as <-. injection Hval as <- <- <-.
    split; [exact Hat|]. split; [exact Hdc|]. split; [exact Hnet|exact Hcpu].
Defined.

(** ** When generation succeeds, and which error it returns *)

Lemma poolBlocks_app `{Collaborators} w infra seg sd pools1 pools2 :
  poolBlocks w infra seg sd (pools1 ++ pools2)
  = do blocks1 <- poolBlocks w infra seg sd pools1;
    do blocks2 <- poolBlocks w infra seg sd pools2;
    Ok (blocks1 ++ blocks2).
Proof.
  induction pools1 as [|pool pools1 IH]; simpl.
  - by destruct (poolBlocks w infra seg sd pools2).
  - destruct (poolLookups w infra seg sd pool) as [e|]; simpl; [|done].
    destruct (zoneRows w e (pool_Zones pool) 0) as [rows|]; simpl; [|done].
    rewrite IH. destruct (poolBlocks w infra seg sd pools1) as [blocks1|]; simpl; [|done].
    by destruct (poolBlocks w infra seg sd pools2).
Qed.

Lemma zoneRows_configured w e zones k :
  (∀ zone, zone ∈ zones →
           is_Some (ZoneConfigs (infra_VsphereConfig (env_infra e)) !! zone)) →
  isOk (zoneRows w e zones k).
Proof.
  revert k. induction zones as [|zone zones IH]; intros k Hall; simpl.
  - by eexists.
  - rewrite zoneStep_eq. destruct (Hall zone) as [zc ->]; [left|]. simpl.
    destruct (IH (S k)) as [rows ->]; [intros z Hz; apply Hall; by right|].
    by eexists.
Qed.

Section outcome.
Context `{Collaborators}.

Lemma poolLookups_resolvable w infra seg sd pool :
  isOk (poolLookups w infra seg sd pool) ↔ poolResolvable w pool.
Proof.
  unfold poolResolvable, poolLookups, isOk. split.
  - intros [e He].
    apply bind_Ok in He as (hash & -> & He).
    apply bind_Ok in He as ([path guest] & -> & He).
    apply bind_Ok in He as ([[cpu mem] disk] & ->%wrap_err_Ok & _).
    repeat split; eexists; reflexivity.
  - intros ([hash ->] & [[path guest] ->] & [[[cpu mem] disk] ->]). simpl. eauto.
Qed.

Lemma poolBlocks_resolvable w infra seg sd pools :
  (∀ pool, pool ∈ pools → poolResolvable w pool ∧ zonesConfigured infra pool) →
  isOk (poolBlocks w infra seg sd pools).
Proof.
  induction pools as [|pool pools IH]; intros Hall; simpl; [by eexists|].
  destruct (Hall pool) as [Hres Hzones]; [left|].
  apply (poolLookups_resolvable w infra seg sd) in Hres as [e He]. rewrite He. simpl.
  destruct (poolLookups_pool _ _ _ _ _ _ He) as (_ & Hinf & _).
  destruct (zoneRows_configured w e (pool_Zones pool) 0) as [rows ->].
  { by rewrite Hinf. }
  simpl. destruct IH as [blocks ->]; [intros p Hp; apply Hall; by right|].
  by eexists.
Qed.

Lemma generate_after_prelude seed w sd infra seg :
  preludeOk seed w sd infra seg →
  generate seed w = poolsLoop w infra seg sd (Pools (worker w)) (Some []) None [].
Proof.
  intros (Hsd & Hinfra & Hseg & Hssh). unfold generate.
  rewrite Hsd, Hinfra. simpl. rewrite Hseg.
  rewrite bool_decide_eq_false_2; [done|]. by destruct (SSHPublicKey (worker w)).
Qed.

Lemma generate_blocks_Err seed w sd infra seg err :
  preludeOk seed w sd infra seg →
  poolBlocks w infra seg sd (Pools (worker w)) = Err err →
  generateMachineConfig seed w = (w, Some err).
Proof.
  intros Hpre Hblocks. apply generate_Err_unchanged.
  rewrite (generate_after_prelude _ _ _ _ _ Hpre).
  pose proof (poolsLoop_blocks w infra seg sd (Pools (worker w)) (Some []) None []) as Hloop.
  destruct (poolsLoop _ _ _ _ _ _ _ _) as [[[mds mcs] images]|err'].
  - destruct Hloop as (blocks & Hb & _). congruence.
  - congruence.
Qed.

(** Generation succeeds exactly when the steps before the pool loop pass
    and, for every pool of the worker, the hash, the image and the machine
    values are found and every zone has a zone configuration; a pool without
    zones still needs its three look-ups. *)
Theorem generation_succeeds_iff seed w :
  (∃ w', generateMachineConfig seed w = (w', None))
  ↔ ∃ sd infra seg,
      preludeOk seed w sd infra seg
      ∧ ∀ pool, pool ∈ Pools (worker w) →
                poolResolvable w pool ∧ zonesConfigured infra pool.
Proof.
  split.
  - intros [w' Hgen].
    pose proof Hgen as (sd & infra & seg & blocks & Hsd & Hinfra & Hseg & Hssh & Hblocks & _)
                       %generateMachineConfig_Ok.
    exists sd, infra, seg. split; [done|].
    intros pool [j Hj]%list_elem_of_lookup.
    destruct (poolBlocks_lookup _ _ _ _ _ _ _ _ Hblocks Hj) as (e & rows & _ & He & _).
    split.
    + apply (poolLookups_resolvable w infra seg sd). by exists e.
    + intros zone [i Hi]%list_elem_of_lookup.
      destruct (generated_lookup _ _ _ _ _ _ _ Hgen Hj Hi)
        as (? & infra' & ? & ? & zc & _ & Hinfra' & _ & _ & Hzc & _).
      assert (infra' = infra) as -> by congruence. eauto.
  - intros (sd & infra & seg & Hpre & Hall).
    destruct (poolBlocks_resolvable w infra seg sd _ Hall) as [blocks Hblocks].
    unfold generateMachineConfig. rewrite (generate_after_prelude _ _ _ _ _ Hpre).
    pose proof (poolsLoop_blocks w infra seg sd (Pools (worker w)) (Some []) None [])
      as Hloop.
    destruct (poolsLoop _ _ _ _ _ _ _ _) as [[[mds mcs] images]|err]; [eauto|].
    congruence.
Qed.

(** The error of the first pool whose look-ups fail is the error of the
    generation, when the pools before it pass: an error of the pool hash or of
    the image look-up is returned as it is, an error of the machine values is
    returned wrapped, which keeps its kind. *)
Theorem pool_lookup_errors seed w sd infra seg pre pool post e :
  preludeOk seed w sd infra seg →
  Pools (worker w) = pre ++ pool :: post →
  (∀ p, p ∈ pre → poolResolvable w p ∧ zonesConfigured infra p) →
  (WorkerPoolHash pool (cluster w) = Err e →
   generateMachineConfig seed w = (w, Some e))
  ∧ (isOk (WorkerPoolHash pool (cluster w)) →
     findMachineImage w (image_Name (pool_MachineImage pool))
                        (image_Version (pool_MachineImage pool)) = Err e →
     generateMachineConfig seed w = (w, Some e))
  ∧ (isOk (WorkerPoolHash pool (cluster w)) →
     isOk (findMachineImage w (image_Name (pool_MachineImage pool))
                              (image_Version (pool_MachineImage pool))) →
     extractMachineValues w (pool_MachineType pool) = Err e →
     generateMachineConfig seed w
     = (w, Some (ErrWrap e "extracting machine values failed"))
     ∧ error_kind (ErrWrap e "extracting machine values failed") = error_kind e).
Proof.
  intros Hpre Hpools Hbefore.
  destruct (poolBlocks_resolvable w infra seg sd _ Hbefore) as [blocks Hblocks].
  assert (Hfail : ∀ err, poolLookups w infra seg sd pool = Err err →
                         generateMachineConfig seed w = (w, Some err)).
  { intros err Herr. apply (generate_blocks_Err _ _ _ _ _ _ Hpre).
    rewrite Hpools, poolBlocks_app, Hblocks. simpl. by rewrite Herr. }
  split; [|split].
  - intros Hhash. apply Hfail. unfold poolLookups. by rewrite Hhash.
  - intros [hash Hhash] Himg. apply Hfail. unfold poolLookups.
    rewrite Hhash. simpl. by rewrite Himg.
  - intros [hash Hhash] [[path guest] Himg] Hval. split; [|done].
    apply Hfail. unfold poolLookups. rewrite Hhash. simpl. rewrite Himg. simpl.
    by rewrite Hval.
Qed.

End outcome.

Lemma pool_lookup_errors_witness :
  generateMachineConfig (H:=Demo.healthy) Demo.seed Demo.wBadType
  = (Demo.wBadType,
     Some (ErrWrap (ErrMachineTypeNotFound "std-99") "extracting machine values failed"))
  ∧ error_kind (ErrWrap (ErrMachineTypeNotFound "std-99")
                        "extracting machine values failed") = Some NotFound.
Proof.
  destruct (pool_lookup_errors (H:=Demo.healthy) Demo.seed Demo.wBadType
              (<["vsphereInsecureSSL" := go_bytes "true"]>
               (<["vspherePassword" := go_bytes "s3cret"]>
               (<["vsphereUsername" := go_bytes "admin"]>
               (<["vsphereHost" := go_bytes "vcenter.example"]> ∅))))
              Demo.infra "segment-1" [Demo.worker1] Demo.worker3 []
              (ErrMachineTypeNotFound "std-99"))
    as (_ & _ & Hwrap).
  - split; [vm_compute; reflexivity|]. split; [reflexivity|].
    split; [reflexivity|discriminate].
  - reflexivity.
  - intros p Hp. apply list_elem_of_singleton in Hp as ->. split.
    + split; [eexists; reflexivity|]. split; eexists; reflexivity.
    + intros zone Hz. unfold Demo.worker1, Demo.pool in Hz. simpl in Hz.
      repeat (apply elem_of_cons in Hz as [->|Hz]; [eexists; reflexivity|]).
      by apply elem_of_nil in Hz.
  - destruct Hwrap as [Hgen Hkind].
    + eexists; reflexivity.
    + eexists; reflexivity.
    + reflexivity.
    + split; [exact Hgen|]. rewrite Hkind. reflexivity.
Defined.

(** ** Deployment names *)

Lemma deploymentName_inj w p1 p2 (i1 i2 : nat) :
  deploymentName w p1 i1 = deploymentName w p2 i2 →
  pool_Name p1 = pool_Name p2 ∧ i1 = i2.
Proof.
  intros Heq. unfold deploymentName in Heq.
  apply (f_equal chars) in Heq. rewrite !chars_app in Heq.
  do 2 apply app_inv_head in Heq. simpl in Heq.
  rewrite !(cons_middle "-"%char), !app_assoc in Heq.
  apply marker_split in Heq as [Hname Hnum]; [|apply fmt_d_no_z..].
  apply app_inj_tail in Hname as [Hname _].
  apply chars_inj in Hname. apply chars_inj, (inj pretty) in Hnum.
  split; [done|lia].
Qed.

(** The deployment names of one generation are pairwise distinct when the
    pool names are: the zone number is the only part after the last letter z,
    so a name determines the pool name and the zone position. *)
Theorem deployment_names_distinct `{Collaborators} seed w w' :
  generateMachineConfig seed w = (w', None) →
  NoDup (pool_Name <$> Pools (worker w)) →
  NoDup (md_Name <$> slice_list (machineDeployments w')).
Proof.
  intros (sd & infra & seg & rows & _ & Hmds & _ & Hrows)%generated_rows Hnames.
  rewrite Hmds. apply NoDup_alt. intros p1 p2 name Hp1 Hp2.
  rewrite !list_lookup_fmap in Hp1, Hp2.
  destruct (rows !! p1) as [row1|] eqn:Hrow1; [|done].
  destruct (rows !! p2) as [row2|] eqn:Hrow2; [|done].
  destruct (Hrows _ _ Hrow1)
    as (j1 & pool1 & i1 & zone1 & e1 & zc1 & Hj1 & _ & -> & He1 & _ & ->).
  destruct (Hrows _ _ Hrow2)
    as (j2 & pool2 & i2 & zone2 & e2 & zc2 & Hj2 & _ & -> & He2 & _ & ->).
  destruct (poolLookups_pool _ _ _ _ _ _ He1) as (Hpl1 & _).
  destruct (poolLookups_pool _ _ _ _ _ _ He2) as (Hpl2 & _).
  simpl in Hp1, Hp2. rewrite Hpl1 in Hp1. rewrite Hpl2 in Hp2.
  assert (Heq : deploymentName w pool1 i1 = deploymentName w pool2 i2) by congruence.
  apply deploymentName_inj in Heq as [Hname ->].
  assert (j1 = j2) as ->; [|done].
  eapply NoDup_lookup; [exact Hnames|..].
  - by rewrite list_lookup_fmap, Hj1.
  - by rewrite list_lookup_fmap, Hj2, Hname.
Qed.

Lemma deployment_names_distinct_witness :
  NoDup (md_Name <$> slice_list (machineDeployments Demo.w1')).
Proof.
  apply (deployment_names_distinct (H:=Demo.healthy) Demo.seed Demo.w1 Demo.w1').
  - vm_compute; reflexivity.
  - simpl. apply NoDup_singleton.
Defined.

(** ** The two entry points *)

Section entries.
Context `{Collaborators}.

(** A successful [GenerateMachineDeployments] is repeatable: the
    deployments it returns are a non-nil slice kept in the delegate, also for
    a worker without pools, and every later call on the delegate returns them
    again and leaves the delegate as it is, whatever the seed answers then. *)
Theorem GenerateMachineDeployments_repeatable seed w w' mds seed2 :
  GenerateMachineDeployments seed w = (w', (mds, None)) →
  mds ≠ None
  ∧ machineDeployments w' = mds
  ∧ GenerateMachineDeployments seed2 w' = (w', (mds, None)).
Proof.
  unfold GenerateMachineDeployments at 1.
  destruct (machineDeployments w) as [cached|] eqn:Hcached.
  - intros [= <- <-]. unfold GenerateMachineDeployments. by rewrite Hcached.
  - destruct (generateMachineConfig seed w) as [w1 [e|]] eqn:Hgen; [done|].
    intros [= <- <-].
    pose proof (GenerateMachineDeployments_cached _ _ _ seed2 Hgen) as Hagain.
    apply generateMachineConfig_Ok in Hgen
      as (? & ? & ? & blocks & _ & _ & _ & _ & _ & _ & Hmds & _).
    by rewrite Hmds in *.
Qed.

(** A failed [GenerateMachineDeployments] returns no deployments and leaves
    the delegate as it was, holding no deployments: the failure is not kept,
    and the error is the one of the generation. *)
Theorem GenerateMachineDeployments_failure seed w w' mds e :
  GenerateMachineDeployments seed w = (w', (mds, Some e)) →
  w' = w ∧ mds = None ∧ machineDeployments w = None
  ∧ generateMachineConfig seed w = (w, Some e).
Proof.
  unfold GenerateMachineDeployments.
  destruct (machineDeployments w) as [cached|] eqn:Hcached; [done|].
  destruct (generateMachineConfig seed w) as [w1 [e1|]] eqn:Hgen; [|done].
  intros [= <- <- <-].
  by apply generateMachineConfig_Err in Hgen as [-> _].
Qed.

(** The first [DeployMachineClasses] on a delegate without classes stores
    what it generated before it applies the chart: its answer is the answer of
    the chart, for the generated classes in the worker's namespace, and even
    when that answer is an error the deployments are then served from the
    delegate without another generation. *)
Theorem DeployMachineClasses_generates_once seed w w1 seed2 :
  machineClasses w = None →
  generateMachineConfig seed w = (w1, None) →
  DeployMachineClasses seed w
  = (w1, Apply seed machineclassChartPath (Namespace (worker w)) "machineclass"
               (machineClasses w1))
  ∧ GenerateMachineDeployments seed2 w1 = (w1, (machineDeployments w1, None)).
Proof.
  intros Hnil Hgen. split.
  - unfold DeployMachineClasses. rewrite Hnil, Hgen.
    apply generateMachineConfig_Ok in Hgen
      as (? & ? & ? & ? & _ & _ & _ & _ & _ & Hworker & _).
    by rewrite Hworker.
  - by eapply GenerateMachineDeployments_cached.
Qed.

(** A generation error makes [DeployMachineClasses] return before the chart
    is applied: the error returned is the generation's, whatever applying the
    chart would answer, and the delegate is left as it was. *)
Theorem DeployMachineClasses_generation_error seed w e :
  machineClasses w = None →
  generateMachineConfig seed w = (w, Some e) →
  ∀ apply,
    DeployMachineClasses
      {| GetSecretByReference := GetSecretByReference seed; Apply := apply |} w
    = (w, Some e).
Proof.
  intros Hnil Hgen apply. unfold DeployMachineClasses. rewrite Hnil.
  assert (Hsame : generateMachineConfig
                    {| GetSecretByReference := GetSecretByReference seed;
                       Apply := apply |} w
                  = generateMachineConfig seed w) by done.
  by rewrite Hsame, Hgen.
Qed.

End entries.

Lemma GenerateMachineDeployments_repeatable_witness :
  GenerateMachineDeployments (H:=Demo.healthy) Demo.seedWithoutSecret Demo.wEmpty'
  = (Demo.wEmpty', (Some [], None)).
Proof.
  apply (GenerateMachineDeployments_repeatable (H:=Demo.healthy)
           Demo.seed Demo.wEmpty Demo.wEmpty' (Some []) Demo.seedWithoutSecret).
  vm_compute; reflexivity.
Defined.

Lemma GenerateMachineDeployments_failure_witness :
  generateMachineConfig (H:=Demo.healthy) Demo.seedWithoutSecret Demo.w1
  = (Demo.w1, Some (ErrCollaborator UpstreamFailure "secret not found")).
Proof.
  apply (GenerateMachineDeployments_failure (H:=Demo.healthy)
           Demo.seedWithoutSecret Demo.w1 Demo.w1 None).
  vm_compute; reflexivity.
Defined.

Lemma DeployMachineClasses_generates_once_witness :
  DeployMachineClasses (H:=Demo.healthy) Demo.seedApplyFails Demo.w1
  = (Demo.w1', Some (ErrCollaborator UpstreamFailure "apply failed"))
  ∧ GenerateMachineDeployments (H:=Demo.healthy) Demo.seedWithoutSecret Demo.w1'
    = (Demo.w1', (machineDeployments Demo.w1', None)).
Proof.
  destruct (DeployMachineClasses_generates_once (H:=Demo.healthy)
              Demo.seedApplyFails Demo.w1 Demo.w1' Demo.seedWithoutSecret)
    as [Hdeploy Hgen].
  - reflexivity.
  - vm_compute; reflexivity.
  - split; [exact Hdeploy|exact Hgen].
Defined.

Lemma DeployMachineClasses_generation_error_witness :
  DeployMachineClasses (H:=Demo.healthy)
    {| GetSecretByReference := GetSecretByReference Demo.seed;
       Apply := Apply Demo.seedApplyFails |} Demo.wBadZone
  = (Demo.wBadZone, Some (ErrZoneConfigNotFound "z9")).
Proof.
  apply (DeployMachineClasses_generation_error (H:=Demo.healthy) Demo.seed Demo.wBadZone).
  - reflexivity.
  - vm_compute; reflexivity.
Defined.

Lemma DeployMachineClasses_cached_witness :
  DeployMachineClasses (H:=Demo.healthy) Demo.seedWithoutSecret Demo.w1'
  = (Demo.w1', None).
Proof.
  rewrite (DeployMachineClasses_cached (H:=Demo.healthy) Demo.seed Demo.w1 Demo.w1'
             Demo.seedWithoutSecret).
  - reflexivity.
  - vm_compute; reflexivity.
  - vm_compute. lia.
Defined.

(** After a successful generation the deployment slice is never nil, and
    the class slice is nil exactly when the worker has no (pool, zone) pair:
    the first starts as an empty slice, the second as a nil one, and both only
    grow by appends. *)
Theorem class_slice_nil_iff `{Collaborators} seed w w' :
  generateMachineConfig seed w = (w', None) →
  machineDeployments w' ≠ None
  ∧ (machineClasses w' = None ↔ zoneCount (Pools (worker w)) = 0%nat).
Proof.
  intros (? & ? & ? & blocks & _ & _ & _ & _ & Hblocks & _ & Hmds & Hmcs)
         %generateMachineConfig_Ok.
  split; [by rewrite Hmds|]. rewrite Hmcs.
  assert (Hlen : length (concat blocks.*2).*2 = zoneCount (Pools (worker w))).
  { rewrite length_fmap, concat_length. unfold zoneCount.
    by rewrite (poolBlocks_lengths _ _ _ _ _ _ Hblocks). }
  rewrite <- Hlen. destruct ((concat blocks.*2).*2); simpl; split; done.
Qed.

Lemma class_slice_nil_iff_witness :
  machineDeployments Demo.wEmpty' ≠ None
  ∧ machineClasses Demo.wEmpty' = None
  ∧ machineClasses Demo.w1' ≠ None.
Proof.
  destruct (class_slice_nil_iff (H:=Demo.healthy) Demo.seed Demo.wEmpty Demo.wEmpty')
    as [Hmds Hnil]; [vm_compute; reflexivity|].
  destruct (class_slice_nil_iff (H:=Demo.healthy) Demo.seed Demo.w1 Demo.w1')
    as [_ Hsome]; [vm_compute; reflexivity|].
  split; [exact Hmds|]. split.
  - apply Hnil. reflexivity.
  - intros Hnone. apply Hsome in Hnone. discriminate.
Defined.

(** * Failures, step by step *)

(** ** The steps before the pool loop *)

Section steps.
Context `{Collaborators}.

Lemma generate_error_unique seed w e e' :
  generate seed w = Err e → generate seed w = Err e' → e = e'.
Proof. congruence. Qed.

Lemma secretData_secret_Err seed w e :
  GetSecretByReference seed (SecretRef (worker w)) = Err e →
  generateMachineClassSecretData seed w = Err e.
Proof. unfold generateMachineClassSecretData. by intros ->. Qed.

Lemma secretData_credentials_Err seed w secret e :
  GetSecretByReference seed (SecretRef (worker w)) = Ok secret →
  ExtractCredentials secret = Err e →
  generateMachineClassSecretData seed w = Err e.
Proof. unfold generateMachineClassSecretData. intros -> Hcred. simpl. by rewrite Hcred. Qed.

Lemma secretData_region_None seed w secret credentials :
  GetSecretByReference seed (SecretRef (worker w)) = Ok secret →
  ExtractCredentials secret = Ok credentials →
  FindRegion (Shoot_Spec_Region (cluster w)) (cloudProfileConfig w) = None →
  generateMachineClassSecretData seed w
  = Err (ErrRegionNotFound (Shoot_Spec_Region (cluster w))).
Proof.
  unfold generateMachineClassSecretData. intros -> Hcred Hregion. simpl.
  rewrite Hcred. simpl. by rewrite Hregion.
Qed.

Lemma generate_secretData_Err seed w e :
  generateMachineClassSecretData seed w = Err e → generate seed w = Err e.
Proof. unfold generate. by intros ->. Qed.

Lemma generate_infra_Err seed w sd e :
  generateMachineClassSecretData seed w = Ok sd →
  GetInfrastructureStatus (Namespace (worker w))
                          (InfrastructureProviderStatus (worker w)) = Err e →
  generate seed w = Err e.
Proof. unfold generate. intros -> Hinfra. simpl. by rewrite Hinfra. Qed.

Lemma generate_segment_None seed w sd infra :
  generateMachineClassSecretData seed w = Ok sd →
  GetInfrastructureStatus (Namespace (worker w))
                          (InfrastructureProviderStatus (worker w)) = Ok infra →
  segmentName infra = None →
  generate seed w = Err ErrSegmentNameNotSet.
Proof. unfold generate. intros -> Hinfra Hseg. simpl. rewrite Hinfra. simpl. by rewrite Hseg. Qed.

Lemma generate_ssh_empty seed w sd infra seg :
  generateMachineClassSecretData seed w = Ok sd →
  GetInfrastructureStatus (Namespace (worker w))
                          (InfrastructureProviderStatus (worker w)) = Ok infra →
  segmentName infra = Some seg →
  SSHPublicKey (worker w) = [] →
  generate seed w = Err ErrMissingSSHPublicKey.
Proof.
  unfold generate. intros -> Hinfra Hseg Hssh. simpl. rewrite Hinfra. simpl.
  by rewrite Hseg, Hssh.
Qed.

Lemma generate_withSpec_secretData_Err seed w status ssh pools e :
  generateMachineClassSecretData seed w = Err e →
  generateMachineConfig seed (withSpec w status ssh pools)
  = (withSpec w status ssh pools, Some e).
Proof.
  intros He. apply generate_Err_unchanged, generate_secretData_Err.
  by rewrite secretData_withSpec.
Qed.

(** Claim C8, amended: when the infrastructure status has no segment name
    or the SSH public key is empty, generation fails whatever the pools are
    and leaves the delegate as it was.  The error is that of the first step
    that fails, in the order of the code: the error of the secret look-up;
    else the error of the credential extraction; else the region error; else
    the error of the decoding of the infrastructure status; and when these
    four steps succeed, the error of the missing segment name or, the segment
    name being set, of the missing SSH key, both of kind
    [MissingConfiguration]. *)
Theorem missing_configuration_fails_fast seed w :
  (∃ infra, GetInfrastructureStatus (Namespace (worker w))
              (InfrastructureProviderStatus (worker w)) = Ok infra
            ∧ segmentName infra = None)
  ∨ SSHPublicKey (worker w) = [] →
  ∃ e,
    generateMachineConfig seed w = (w, Some e)
    ∧ (∀ pools, generateMachineConfig seed (withPools w pools) = (withPools w pools, Some e))
    ∧ (∀ sd infra,
         generateMachineClassSecretData seed w = Ok sd →
         GetInfrastructureStatus (Namespace (worker w))
           (InfrastructureProviderStatus (worker w)) = Ok infra →
         e = (if segmentName infra is Some _ then ErrMissingSSHPublicKey
              else ErrSegmentNameNotSet)
         ∧ error_kind e = Some MissingConfiguration)
    ∧ (∀ e1, GetSecretByReference seed (SecretRef (worker w)) = Err e1 → e = e1)
    ∧ (∀ secret e1,
         GetSecretByReference seed (SecretRef (worker w)) = Ok secret →
         ExtractCredentials secret = Err e1 → e = e1)
    ∧ (∀ secret credentials,
         GetSecretByReference seed (SecretRef (worker w)) = Ok secret →
         ExtractCredentials secret = Ok credentials →
         FindRegion (Shoot_Spec_Region (cluster w)) (cloudProfileConfig w) = None →
         e = ErrRegionNotFound (Shoot_Spec_Region (cluster w)))
    ∧ (∀ sd e2,
         generateMachineClassSecretData seed w = Ok sd →
         GetInfrastructureStatus (Namespace (worker w))
           (InfrastructureProviderStatus (worker w)) = Err e2 →
         e = e2).
Proof.
  intros Hmissing.
  assert (Hprelude : ∀ pools, generate seed (withPools w pools)
    = do sd <- generateMachineClassSecretData seed w;
      do infra <- GetInfrastructureStatus (Namespace (worker w))
                    (InfrastructureProviderStatus (worker w));
      match segmentName infra with
      | None => Err ErrSegmentNameNotSet
      | Some seg =>
          if bool_decide (length (SSHPublicKey (worker w)) = 0%nat)
          then Err ErrMissingSSHPublicKey
          else poolsLoop (withPools w pools) infra seg sd pools (Some []) None []
      end) by done.
  assert (Hfail : ∃ e, ∀ pools, generate seed (withPools w pools) = Err e).
  { destruct (generateMachineClassSecretData seed w) as [sd|e1] eqn:Hsd.
    2:{ exists e1. intros pools. by rewrite Hprelude. }
    destruct (GetInfrastructureStatus (Namespace (worker w))
                (InfrastructureProviderStatus (worker w))) as [infra|e2] eqn:Hinfra.
    2:{ exists e2. intros pools. by rewrite Hprelude. }
    destruct (segmentName infra) as [seg|] eqn:Hseg.
    - destruct Hmissing as [(infra' & [= <-] & Hnone)|Hssh]; [congruence|].
      exists ErrMissingSSHPublicKey. intros pools. rewrite Hprelude. simpl.
      by rewrite Hseg, Hssh.
    - exists ErrSegmentNameNotSet. intros pools. rewrite Hprelude. simpl.
      by rewrite Hseg. }
  destruct Hfail as [e Hfail]. exists e.
  assert (Hw : generate seed w = Err e).
  { specialize (Hfail (Pools (worker w))). by rewrite withPools_id in Hfail. }
  split; [by apply generate_Err_unchanged|].
  split; [intros pools; by apply generate_Err_unchanged|].
  split; [|split; [|split; [|split]]].
  - intros sd infra Hsd Hinfra.
    destruct (segmentName infra) as [seg|] eqn:Hseg.
    + destruct Hmissing as [(infra' & Hinfra' & Hnone)|Hssh]; [congruence|].
      by rewrite (generate_error_unique _ _ _ _ Hw
                    (generate_ssh_empty _ _ _ _ _ Hsd Hinfra Hseg Hssh)).
    + by rewrite (generate_error_unique _ _ _ _ Hw
                    (generate_segment_None _ _ _ _ Hsd Hinfra Hseg)).
  - intros e1 Hsecret. eapply generate_error_unique; [exact Hw|].
    by apply generate_secretData_Err, secretData_secret_Err.
  - intros secret e1 Hsecret Hcred. eapply generate_error_unique; [exact Hw|].
    by eapply generate_secretData_Err, secretData_credentials_Err.
  - intros secret credentials Hsecret Hcred Hregion.
    eapply generate_error_unique; [exact Hw|].
    by eapply generate_secretData_Err, secretData_region_None.
  - intros sd e2 Hsd Hinfra. eapply generate_error_unique; [exact Hw|].
    by eapply generate_infra_Err.
Qed.

(** Claim C10, amended: when the shoot's region has no entry in the cloud
    profile configuration, generation fails in the credential step, with the
    same error whatever the infrastructure status, the SSH key and the pools
    are, and leaves the delegate as it was.  The error is that of the first
    step that fails: the error of the secret look-up; else the error of the
    credential extraction; and when both succeed, the region error, which has
    none of the enumerated kinds. *)
Theorem unknown_region_fails_first seed w :
  FindRegion (Shoot_Spec_Region (cluster w)) (cloudProfileConfig w) = None →
  ∃ e,
    generateMachineClassSecretData seed w = Err e
    ∧ generateMachineConfig seed w = (w, Some e)
    ∧ (∀ status ssh pools,
         generateMachineConfig seed (withSpec w status ssh pools)
         = (withSpec w status ssh pools, Some e))
    ∧ (∀ secret credentials,
         GetSecretByReference seed (SecretRef (worker w)) = Ok secret →
         ExtractCredentials secret = Ok credentials →
         e = ErrRegionNotFound (Shoot_Spec_Region (cluster w))
         ∧ error_kind e = None)
    ∧ (∀ e1, GetSecretByReference seed (SecretRef (worker w)) = Err e1 → e = e1)
    ∧ (∀ secret e1,
         GetSecretByReference seed (SecretRef (worker w)) = Ok secret →
         ExtractCredentials secret = Err e1 → e = e1).
Proof.
  intros Hregion.
  assert (Hfail : ∃ e, generateMachineClassSecretData seed w = Err e).
  { destruct (GetSecretByReference seed (SecretRef (worker w))) as [secret|e1] eqn:Hsecret.
    2:{ exists e1. by apply secretData_secret_Err. }
    destruct (ExtractCredentials secret) as [credentials|e2] eqn:Hcred.
    - eexists. by eapply secretData_region_None.
    - exists e2. by eapply secretData_credentials_Err. }
  destruct Hfail as [e He]. exists e.
  split; [done|].
  split; [by apply generate_Err_unchanged, generate_secretData_Err|].
  split; [intros status ssh pools; by apply generate_withSpec_secretData_Err|].
  split; [|split].
  - intros secret credentials Hsecret Hcred.
    rewrite (secretData_region_None _ _ _ _ Hsecret Hcred Hregion) in He.
    by injection He as <-.
  - intros e1 Hsecret. rewrite (secretData_secret_Err _ _ _ Hsecret) in He. congruence.
  - intros secret e1 Hsecret Hcred.
    rewrite (secretData_credentials_Err _ _ _ _ Hsecret Hcred) in He. congruence.
Qed.

End steps.

(** ** The first zone without configuration *)

Lemma first_missing_in_zones (infra : InfrastructureStatus) (zones : list string) :
  (∃ zone, zone ∈ zones ∧ ZoneConfigs (infra_VsphereConfig infra) !! zone = None) →
  ∃ zpre zone zpost,
    zones = zpre ++ zone :: zpost
    ∧ (∀ z, z ∈ zpre → is_Some (ZoneConfigs (infra_VsphereConfig infra) !! z))
    ∧ ZoneConfigs (infra_VsphereConfig infra) !! zone = None.
Proof.
  induction zones as [|z zones IH]; intros (zone & Hin & Hnone).
  { by apply elem_of_nil in Hin. }
  destruct (ZoneConfigs (infra_VsphereConfig infra) !! z) as [zc|] eqn:Hz.
  - apply elem_of_cons in Hin as [->|Hin]; [congruence|].
    destruct IH as (zpre & zone' & zpost & -> & Hpre & Hzone'); [eauto|].
    exists (z :: zpre), zone', zpost. split; [done|]. split; [|done].
    intros z' [->|Hz']%elem_of_cons; eauto.
  - exists [], z, zones. split; [done|]. split; [|done].
    intros z' Hz'. by apply elem_of_nil in Hz'.
Qed.

Lemma zonesConfigured_dec (infra : InfrastructureStatus) (pool : WorkerPool) :
  zonesConfigured infra pool
  ∨ ∃ zone, zone ∈ pool_Zones pool
            ∧ ZoneConfigs (infra_VsphereConfig infra) !! zone = None.
Proof.
  unfold zonesConfigured. induction (pool_Zones pool) as [|z zones IH].
  { left. intros zone Hin. by apply elem_of_nil in Hin. }
  destruct (ZoneConfigs (infra_VsphereConfig infra) !! z) as [zc|] eqn:Hz.
  - destruct IH as [Hall|(zone & Hin & Hnone)].
    + left. intros zone [->|Hin]%elem_of_cons; eauto.
    + right. exists zone. split; [by right|done].
  - right. exists z. split; [left|done].
Qed.

Lemma first_missing_zone (infra : InfrastructureStatus) (pools : list WorkerPool) :
  (∃ pool zone, pool ∈ pools ∧ zone ∈ pool_Zones pool
                ∧ ZoneConfigs (infra_VsphereConfig infra) !! zone = None) →
  ∃ pre pool post zpre zone zpost,
    firstMissingZone infra pools pre pool post zpre zone zpost.
Proof.
  induction pools as [|p pools IH]; intros (pool & zone & Hin & Hzone & Hnone).
  { by apply elem_of_nil in Hin. }
  destruct (zonesConfigured_dec infra p) as [Hconf|Hmiss].
  - apply elem_of_cons in Hin as [->|Hin].
    { destruct (Hconf zone Hzone) as [zc Hzc]. congruence. }
    destruct IH as (pre & pool' & post & zpre & zone' & zpost & -> & Hpre & Hrest);
      [by eauto|].
    exists (p :: pre), pool', post, zpre, zone', zpost.
    split; [done|]. split; [|done].
    intros q [->|Hq]%elem_of_cons; eauto.
  - apply first_missing_in_zones in Hmiss as (zpre & zone' & zpost & Hz & Hzpre & Hnone').
    exists [], p, pools, zpre, zone', zpost.
    split; [done|]. split; [|done].
    intros q Hq. by apply elem_of_nil in Hq.
Qed.

Lemma zoneRows_first_missing w e zpre zone zpost k :
  (∀ z, z ∈ zpre → is_Some (ZoneConfigs (infra_VsphereConfig (env_infra e)) !! z)) →
  ZoneConfigs (infra_VsphereConfig (env_infra e)) !! zone = None →
  zoneRows w e (zpre ++ zone :: zpost) k = Err (ErrZoneConfigNotFound zone).
Proof.
  revert k. induction zpre as [|z zpre IH]; intros k Hpre Hnone; simpl.
  - by rewrite zoneStep_eq, Hnone.
  - rewrite zoneStep_eq. destruct (Hpre z) as [zc ->]; [left|]. simpl.
    rewrite IH; [done| |done]. intros z' Hz'. apply Hpre. by right.
Qed.

Lemma prefix_of_snoc {A} (before after pre : list A) (p x : A) :
  before ++ p :: after = pre ++ [x] →
  (∀ q, q ∈ before → q ∈ pre)
  ∧ ∀ post, pre ++ x :: post = before ++ p :: (after ++ post).
Proof.
  intros Heq. destruct after as [|y after _] using rev_ind.
  - apply app_inj_tail in Heq as [-> ->]. split; [done|].
    intros post. done.
  - rewrite app_comm_cons, app_assoc in Heq.
    apply app_inj_tail in Heq as [<- <-]. split.
    + intros q Hq. apply elem_of_app. by left.
    + intros post. by rewrite <- !app_assoc.
Qed.

Section zones.
Context `{Collaborators}.

Lemma poolLookups_Err_iff w infra seg sd pool e :
  poolLookups w infra seg sd pool = Err e ↔ poolLookupError w pool e.
Proof.
  unfold poolLookups, poolLookupError, isOk.
  destruct (WorkerPoolHash pool (cluster w)) as [hash|e0]; simpl.
  2:{ split; [intros [= <-]; by left|].
      intros [[= <-]|[([? ?] & _)|([? ?] & _)]]; done. }
  destruct (findMachineImage w _ _) as [[path guest]|e0]; simpl.
  2:{ split; [intros [= <-]; right; left; eauto|].
      intros [?|[(_ & [= <-])|(_ & [? ?] & _)]]; done. }
  destruct (extractMachineValues w _) as [[[cpu mem] disk]|e0]; simpl.
  - split; [done|]. intros [?|[(_ & ?)|(_ & _ & e1 & ? & _)]]; done.
  - split.
    + intros [= <-]. right; right. eauto 10.
    + intros [?|[(_ & ?)|(_ & _ & e1 & [= <-] & ->)]]; done.
Qed.

(** Claim C3, amended: when a zone referenced by a pool has no entry in the
    zone configurations of the infrastructure status, generation returns an
    error and leaves the delegate, with its cached deployments, classes and
    images, as it was, so nothing is returned for any pool.  The error is that
    of the first step that fails, in the order of the code: the error of the
    credential step; else the missing segment name; else the missing SSH key;
    else, among the pools up to the one that holds the first zone without
    configuration, the error of the first pool whose look-ups fail; and when
    all these steps succeed, the error of that first zone without
    configuration, of kind [NotFound].  Pools after that zone are not
    looked at. *)
Theorem missing_zone_all_or_nothing seed w infra :
  GetInfrastructureStatus (Namespace (worker w))
    (InfrastructureProviderStatus (worker w)) = Ok infra →
  (∃ pool zone, pool ∈ Pools (worker w) ∧ zone ∈ pool_Zones pool
                ∧ ZoneConfigs (infra_VsphereConfig infra) !! zone = None) →
  ∃ e pre pool post zpre zone zpost,
    generateMachineConfig seed w = (w, Some e)
    ∧ (machineDeployments w = None →
       GenerateMachineDeployments seed w = (w, (None, Some e)))
    ∧ firstMissingZone infra (Pools (worker w)) pre pool post zpre zone zpost
    ∧ (∀ sd seg,
         preludeOk seed w sd infra seg →
         (∀ p, p ∈ pre ++ [pool] → poolResolvable w p) →
         e = ErrZoneConfigNotFound zone ∧ error_kind e = Some NotFound)
    ∧ (∀ e1, generateMachineClassSecretData seed w = Err e1 → e = e1)
    ∧ (∀ sd, generateMachineClassSecretData seed w = Ok sd →
             segmentName infra = None → e = ErrSegmentNameNotSet)
    ∧ (∀ sd seg, generateMachineClassSecretData seed w = Ok sd →
                 segmentName infra = Some seg →
                 SSHPublicKey (worker w) = [] → e = ErrMissingSSHPublicKey)
    ∧ (∀ sd seg before p after e1,
         preludeOk seed w sd infra seg →
         pre ++ [pool] = before ++ p :: after →
         (∀ q, q ∈ before → poolResolvable w q) →
         poolLookupError w p e1 →
         e = e1).
Proof.
  intros Hinfra Hmissing.
  assert (Hfail : ∃ e, generate seed w = Err e).
  { destruct (generateMachineConfig_cases seed w) as [[w' Hok]|(e & Hgen & _)]; [|eauto].
    destruct Hmissing as (pool & zone & [j Hj]%list_elem_of_lookup
                          & [i Hi]%list_elem_of_lookup & Hzc).
    destruct (generated_lookup _ _ _ _ _ _ _ Hok Hj Hi)
      as (? & infra' & ? & ? & zc & _ & Hinfra' & _ & _ & Hzc' & _).
    congruence. }
  destruct Hfail as [e Hgen].
  destruct (first_missing_zone _ _ Hmissing)
    as (pre & pool & post & zpre & zone & zpost & Hfirst).
  exists e, pre, pool, post, zpre, zone, zpost.
  pose proof (generate_Err_unchanged _ _ _ Hgen) as Hconfig.
  split; [done|]. split.
  { intros Hnil. unfold GenerateMachineDeployments. by rewrite Hnil, Hconfig. }
  split; [done|].
  destruct Hfirst as (Hpools & Hpre & Hzones & Hzpre & Hnone).
  assert (Hblocks : ∀ sd seg err,
    preludeOk seed w sd infra seg →
    poolBlocks w infra seg sd (Pools (worker w)) = Err err → e = err).
  { intros sd seg err Hprelude Herr.
    pose proof (generate_blocks_Err _ _ _ _ _ _ Hprelude Herr) as Hconfig'.
    congruence. }
  split; [|split; [|split; [|split]]].
  - intros sd seg Hprelude Hres.
    cut (e = ErrZoneConfigNotFound zone); [by intros ->|].
    apply (Hblocks sd seg); [done|].
    rewrite Hpools, poolBlocks_app.
    destruct (poolBlocks_resolvable w infra seg sd pre) as [blocks ->].
    { intros p Hp. split; [|by apply Hpre]. apply Hres, elem_of_app. by left. }
    simpl.
    destruct (proj2 (poolLookups_resolvable w infra seg sd pool)) as [env Henv].
    { apply Hres, elem_of_app. right. left. }
    rewrite Henv. simpl.
    destruct (poolLookups_pool _ _ _ _ _ _ Henv) as (_ & Hinf & _).
    rewrite Hzones, zoneRows_first_missing; [done|by rewrite Hinf..].
  - intros e1 He1. eapply generate_error_unique; [exact Hgen|].
    by apply generate_secretData_Err.
  - intros sd Hsd Hseg. eapply generate_error_unique; [exact Hgen|].
    by eapply generate_segment_None.
  - intros sd seg Hsd Hseg Hssh. eapply generate_error_unique; [exact Hgen|].
    by eapply generate_ssh_empty.
  - intros sd seg before p after e1 Hprelude Hsplit Hres Herr.
    symmetry in Hsplit. apply prefix_of_snoc in Hsplit as [Hsub Hrest].
    apply (Hblocks sd seg); [done|].
    rewrite Hpools, (Hrest post), poolBlocks_app.
    destruct (poolBlocks_resolvable w infra seg sd before) as [blocks ->].
    { intros q Hq. split; [by apply Hres|by apply Hpre, Hsub]. }
    simpl. apply (poolLookups_Err_iff w infra seg sd) in Herr. by rewrite Herr.
Qed.

End zones.

Lemma missing_configuration_fails_fast_witness :
  ∃ e, generateMachineConfig (H:=Demo.unsegmented) Demo.seed Demo.w1 = (Demo.w1, Some e)
       ∧ e = ErrSegmentNameNotSet
       ∧ error_kind e = Some MissingConfiguration.
Proof.
  destruct (missing_configuration_fails_fast (H:=Demo.unsegmented) Demo.seed Demo.w1)
    as (e & Hgen & _ & Hkind & _).
  - left. exists Demo.infraNoSegment. split; reflexivity.
  - exists e. split; [exact Hgen|].
    apply (Hkind (<["vsphereInsecureSSL" := go_bytes "true"]>
                  (<["vspherePassword" := go_bytes "s3cret"]>
                  (<["vsphereUsername" := go_bytes "admin"]>
                  (<["vsphereHost" := go_bytes "vcenter.example"]> ∅))))
                 Demo.infraNoSegment).
    + vm_compute; reflexivity.
    + reflexivity.
Defined.

Lemma unknown_region_fails_first_witness :
  ∃ e, generateMachineConfig (H:=Demo.healthy) Demo.seed Demo.wMars = (Demo.wMars, Some e)
       ∧ e = ErrRegionNotFound "mars"
       ∧ error_kind e = None.
Proof.
  destruct (unknown_region_fails_first (H:=Demo.healthy) Demo.seed Demo.wMars)
    as (e & _ & Hgen & _ & Hkind & _).
  - reflexivity.
  - exists e. split; [exact Hgen|].
    apply (Hkind (<["username" := go_bytes "admin"]> {[ "password" := go_bytes "s3cret" ]})
                 {| VsphereMCM := {| Username := "admin"; Password := "s3cret" |} |}).
    + reflexivity.
    + vm_compute; reflexivity.
Defined.

Lemma missing_zone_all_or_nothing_witness :
  ∃ e, generateMachineConfig (H:=Demo.healthy) Demo.seed Demo.wBadZoneThenType
       = (Demo.wBadZoneThenType, Some e)
       ∧ GenerateMachineDeployments (H:=Demo.healthy) Demo.seed Demo.wBadZoneThenType
         = (Demo.wBadZoneThenType, (None, Some e))
       ∧ error_kind e = Some NotFound.
Proof.
  destruct (missing_zone_all_or_nothing (H:=Demo.healthy) Demo.seed
              Demo.wBadZoneThenType Demo.infra)
    as (e & pre & pool & post & zpre & zone & zpost
        & Hgen & Hnone & (Hpools & Hpre & _) & Hkind & _).
  - reflexivity.
  - exists Demo.worker2, "z9".
    split; [apply (list_elem_of_lookup_2 _ 0%nat); reflexivity|].
    split; [apply (list_elem_of_lookup_2 _ 1%nat); reflexivity|].
    reflexivity.
  - exists e. split; [exact Hgen|]. split; [apply Hnone; reflexivity|].
    assert (Hhead : pre = [] ∧ pool = Demo.worker2).
    { destruct pre as [|p pre].
      - injection Hpools as <- _. split; reflexivity.
      - exfalso. injection Hpools as <- _.
        destruct (Hpre Demo.worker2 ltac:(left) "z9") as [zc Hzc].
        + apply (list_elem_of_lookup_2 _ 1%nat). reflexivity.
        + discriminate Hzc. }
    destruct Hhead as [-> ->].
    destruct (Hkind (<["vsphereInsecureSSL" := go_bytes "true"]>
                     (<["vspherePassword" := go_bytes "s3cret"]>
                     (<["vsphereUsername" := go_bytes "admin"]>
                     (<["vsphereHost" := go_bytes "vcenter.example"]> ∅))))
                    "segment-1") as [_ Hnf].
    + split; [vm_compute; reflexivity|]. split; [reflexivity|].
      split; [reflexivity|discriminate].
    + intros p Hp. apply list_elem_of_singleton in Hp as ->.
      split; [eexists; reflexivity|]. split; eexists; reflexivity.
    + exact Hnf.
Defined.

(** A pool after the first zone without configuration is not looked at: its
    absent machine type does not change the error. *)
Example missing_zone_before_bad_type :
  generateMachineConfig (H:=Demo.healthy) Demo.seed Demo.wBadZoneThenType
  = (Demo.wBadZoneThenType, Some (ErrZoneConfigNotFound "z9")).
Proof. vm_compute. reflexivity. Qed.
